(** * pyosu: the request pipeline ([pyosu/http.py]) and the beatmap file
    version reader ([pyosu/beatmap_file.py]).

    Python strings are modelled by [string]; integers by [Z]; a [dict] by an
    association list kept in insertion order without duplicate keys; an
    exception by a constructor of [exn] carried by the error monad
    [outcome]. *)

From Stdlib Require Import String Ascii List ZArith Bool Lia DecimalString.
Import ListNotations.

#[local] Set Warnings "-register-all".

Local Open Scope string_scope.
Local Open Scope list_scope.
Local Open Scope Z_scope.

(** ** Python values *)

(** The values [json.loads] produces, which are also the values a
    [Request] stores and the errors carry.  A float is kept as its
    printed form: no claim computes with one. *)
Inductive value : Type :=
| VNone
| VBool (b : bool)
| VInt (z : Z)
| VFloat (repr : string)
| VStr (s : string)
| VList (items : list value)
| VDict (items : list (string * value)).

(** The exceptions of [pyosu/exceptions.py], with the arguments the
    raise sites of [http.py] give them, and the built-in ones the modelled
    code can let through. *)
Inductive exn : Type :=
| InvalidArgument (key : string)
| WrongApiKey (message : value)
| RouteNotFound (message : string) (code : Z)
| HTTPError (code : Z) (message : value)
| ReplayUnavailable (message : value)
| JSONDecodeError
| KeyError (key : string)
| TypeError
| AttributeError
| ValueError.

Inductive outcome (A : Type) : Type :=
| Return (a : A)
| Raise (e : exn).

Arguments Return {A} a.
Arguments Raise {A} e.

Definition bind {A B : Type} (m : outcome A) (k : A -> outcome B) : outcome B :=
  match m with
  | Return a => k a
  | Raise e => Raise e
  end.

Notation "x <- m ;; k" := (bind m (fun x => k))
  (at level 61, m at next level, right associativity).

Definition raises {A : Type} (m : outcome A) : Prop :=
  exists e, m = Raise e.

(** ** Insertion-ordered dictionaries *)

Section Dict.

Context {V : Type}.

Definition dict : Type := list (string * V).

Fixpoint dict_get (d : dict) (key : string) : option V :=
  match d with
  | [] => None
  | (k, v) :: d' => if String.eqb k key then Some v else dict_get d' key
  end.

Definition dict_mem (d : dict) (key : string) : bool :=
  match dict_get d key with
  | Some _ => true
  | None => false
  end.

(** [d[key] = v]: an existing key keeps its place, a new one goes last. *)
Fixpoint dict_set (d : dict) (key : string) (v : V) : dict :=
  match d with
  | [] => [(key, v)]
  | (k, w) :: d' =>
      if String.eqb k key then (k, v) :: d' else (k, w) :: dict_set d' key v
  end.

(** [d.pop(key, None)]: the removed value, if any, and what is left. *)
Fixpoint dict_pop (d : dict) (key : string) : option V * dict :=
  match d with
  | [] => (None, [])
  | (k, w) :: d' =>
      if String.eqb k key then (Some w, d')
      else let (r, d'') := dict_pop d' key in (r, (k, w) :: d'')
  end.

Definition dict_keys (d : dict) : list string := map fst d.

End Dict.

Arguments dict V : clear implicits.

(** ** Route *)

(** A query parameter value.  The callers of [Route] pass strings,
    integers and booleans; [None] is the [option] around it. *)
Inductive param : Type :=
| PStr (s : string)
| PInt (z : Z)
| PBool (b : bool).

(** Python's [str()] on a parameter value. *)
Definition str (v : param) : string :=
  match v with
  | PStr s => s
  | PInt z => NilZero.string_of_int (Z.to_int z)
  | PBool true => "True"
  | PBool false => "False"
  end.

Module Route.

Record t : Type := mk {
  base : string;
  path : string;
  api_key : string;
  parameters : dict param
}.

Definition default_base : string := "https://osu.ppy.sh/api/".

(** [Route.__init__]: the keyword arguments whose value is not [None] are
    stored, in the order given. *)
Definition __init__ (path api_key base : string)
  (kwargs : list (string * option param)) : t :=
  mk base path api_key
    (fold_left
       (fun ps kv => match snd kv with
                     | Some v => dict_set ps (fst kv) v
                     | None => ps
                     end)
       kwargs []).

(** The [route] property. *)
Definition route (self : t) : string :=
  let params : list string := [] in
  let params :=
    if negb (String.eqb (api_key self) "")
    then params ++ [("k=" ++ api_key self)%string]
    else params in
  let params :=
    fold_left
      (fun acc kv => acc ++ [(fst kv ++ "=" ++ str (snd kv))%string])
      (parameters self) params in
  if (0 <? Z.of_nat (length params))
  then (base self ++ path self ++ "?" ++ String.concat "&" params)%string
  else (base self ++ path self)%string.

Definition add_param (self : t) (key : string) (v : option param) : t :=
  match v with
  | None => self
  | Some v =>
      mk (base self) (path self) (api_key self) (dict_set (parameters self) key v)
  end.

(** [remove_param]: the stored values are never [None], so the popped
    value differs from [None] exactly when the key was present. *)
Definition remove_param (self : t) (key : string) : bool * t :=
  let (r, ps) := dict_pop (parameters self) key in
  (match r with Some _ => true | None => false end,
   mk (base self) (path self) (api_key self) ps).

Definition accepted_params : list string :=
  ["a"; "h"; "k"; "m"; "b"; "u"; "s"; "mp";
   "limit"; "type"; "mods"; "event_days"; "since"].

Definition accepted (key : string) : bool :=
  existsb (String.eqb key) accepted_params.

Fixpoint check_keys (keys : list string) : outcome unit :=
  match keys with
  | [] => Return tt
  | key :: rest =>
      if negb (accepted key) then Raise (InvalidArgument key)
      else check_keys rest
  end.

Definition check_params (self : t) : outcome unit :=
  check_keys (dict_keys (parameters self)).

End Route.

(** ** The JSON reader

    [json.loads] belongs to Python's library, so the pipeline below takes
    the reader as a parameter.  [Json.loads] is the reader the worked
    examples run: the grammar of [json.decoder] (white space, [null],
    [true], [false], [NaN], [Infinity], numbers, strings with their
    escapes, arrays, objects; a repeated key keeps its first place and its
    last value), with a string's text held as UTF-8. *)

Module Json.

Definition between (lo hi : N) (c : ascii) : bool :=
  ((lo <=? N_of_ascii c) && (N_of_ascii c <=? hi))%N.

Definition is_digit (c : ascii) : bool := between 48 57 c.

Definition is_space (c : ascii) : bool :=
  Ascii.eqb c " " || Ascii.eqb c "009" || Ascii.eqb c "010" || Ascii.eqb c "013".

Fixpoint skip (s : string) : string :=
  match s with
  | String c s' => if is_space c then skip s' else s
  | EmptyString => s
  end.

(** [strip p s]: what follows the prefix [p] of [s]. *)
Fixpoint strip (p s : string) : option string :=
  match p, s with
  | EmptyString, _ => Some s
  | String a p', String b s' => if Ascii.eqb a b then strip p' s' else None
  | String _ _, EmptyString => None
  end.

(** The longest run of decimal digits at the head of [s], and the rest. *)
Fixpoint span_digits (s : string) : string * string :=
  match s with
  | String c s' =>
      if is_digit c
      then let (d, r) := span_digits s' in (String c d, r)
      else (EmptyString, s)
  | EmptyString => (EmptyString, EmptyString)
  end.

Definition digit_value (c : ascii) : Z := Z.of_N (N_of_ascii c) - 48.

Fixpoint decimal (acc : Z) (s : string) : Z :=
  match s with
  | String c s' => decimal (10 * acc + digit_value c) s'
  | EmptyString => acc
  end.

Definition hex (c : ascii) : option N :=
  let n := N_of_ascii c in
  if between 48 57 c then Some (n - 48)%N
  else if between 65 70 c then Some (n - 55)%N
  else if between 97 102 c then Some (n - 87)%N
  else None.

Definition hex4 (s : string) : option (N * string) :=
  match s with
  | String a (String b (String c (String d rest))) =>
      match hex a, hex b, hex c, hex d with
      | Some a, Some b, Some c, Some d =>
          Some ((((a * 16 + b) * 16 + c) * 16 + d)%N, rest)
      | _, _, _, _ => None
      end
  | _ => None
  end.

Definition byte (n : N) : string := String (ascii_of_N n) EmptyString.

Definition utf8 (n : N) : string :=
  (if n <? 128 then byte n
   else if n <? 2048 then byte (192 + n / 64) ++ byte (128 + n mod 64)
   else if n <? 65536 then
     byte (224 + n / 4096) ++ byte (128 + (n / 64) mod 64) ++ byte (128 + n mod 64)
   else
     byte (240 + n / 262144) ++ byte (128 + (n / 4096) mod 64)
       ++ byte (128 + (n / 64) mod 64) ++ byte (128 + n mod 64))%N%string.

Definition simple_escape (c : ascii) : option ascii :=
  if Ascii.eqb c "034" then Some "034"%char
  else if Ascii.eqb c "\" then Some "\"%char
  else if Ascii.eqb c "/" then Some "/"%char
  else if Ascii.eqb c "b" then Some "008"%char
  else if Ascii.eqb c "f" then Some "012"%char
  else if Ascii.eqb c "n" then Some "010"%char
  else if Ascii.eqb c "r" then Some "013"%char
  else if Ascii.eqb c "t" then Some "009"%char
  else None.

(** A [\uXXXX] escape, [s] standing after the [u]; a high surrogate
    followed by an escaped low one makes one character. *)
Definition unicode_escape (s : string) : option (N * string) :=
  match hex4 s with
  | Some (hi, rest) =>
      if ((55296 <=? hi) && (hi <=? 56319))%N then
        match strip "\u" rest with
        | Some rest2 =>
            match hex4 rest2 with
            | Some (lo, rest3) =>
                if ((56320 <=? lo) && (lo <=? 57343))%N
                then Some ((65536 + ((hi - 55296) * 1024 + (lo - 56320)))%N, rest3)
                else Some (hi, rest)
            | None => Some (hi, rest)
            end
        | None => Some (hi, rest)
        end
      else Some (hi, rest)
  | None => None
  end.

(** [scanstring]: [s] stands after the opening quote; the decoded text and
    what follows the closing quote. *)
Fixpoint scanstring (fuel : nat) (s : string) : option (string * string) :=
  match fuel with
  | O => None
  | S fuel' =>
      match s with
      | EmptyString => None
      | String c rest =>
          if Ascii.eqb c "034" then Some (EmptyString, rest)
          else if Ascii.eqb c "\" then
            match rest with
            | EmptyString => None
            | String e rest' =>
                match simple_escape e with
                | Some ch =>
                    match scanstring fuel' rest' with
                    | Some (x, r) => Some (String ch x, r)
                    | None => None
                    end
                | None =>
                    if Ascii.eqb e "u" then
                      match unicode_escape rest' with
                      | Some (n, rest'') =>
                          match scanstring fuel' rest'' with
                          | Some (x, r) => Some ((utf8 n ++ x)%string, r)
                          | None => None
                          end
                      | None => None
                      end
                    else None
                end
            end
          else if (N_of_ascii c <? 32)%N then None
          else
            match scanstring fuel' rest with
            | Some (x, r) => Some (String c x, r)
            | None => None
            end
      end
  end.

(** A number literal: an integer part, then a fraction and an exponent,
    each taken only when complete.  With either the literal is a float. *)
Definition scan_fraction (s : string) : string * string :=
  match s with
  | String c s' =>
      if Ascii.eqb c "." then
        match span_digits s' with
        | (String d ds, r) => (String c (String d ds), r)
        | (EmptyString, _) => (EmptyString, s)
        end
      else (EmptyString, s)
  | EmptyString => (EmptyString, s)
  end.

Definition scan_exponent (s : string) : string * string :=
  match s with
  | String c s' =>
      if Ascii.eqb c "e" || Ascii.eqb c "E" then
        let (sign, s'') :=
          match s' with
          | String g t =>
              if Ascii.eqb g "+" || Ascii.eqb g "-"
              then (String g EmptyString, t) else (EmptyString, s')
          | EmptyString => (EmptyString, s')
          end in
        match span_digits s'' with
        | (String d ds, r) => ((String c sign ++ String d ds)%string, r)
        | (EmptyString, _) => (EmptyString, s)
        end
      else (EmptyString, s)
  | EmptyString => (EmptyString, s)
  end.

Definition scan_number (s : string) : option (value * string) :=
  let (sign, s1) :=
    match s with
    | String c t => if Ascii.eqb c "-" then ("-", t) else (EmptyString, s)
    | EmptyString => (EmptyString, s)
    end in
  let integer : option (string * string) :=
    match s1 with
    | String c t =>
        if Ascii.eqb c "0" then Some ("0", t)
        else if is_digit c then Some (span_digits s1)
        else None
    | EmptyString => None
    end in
  match integer with
  | None => None
  | Some (int, s2) =>
      let (frac, s3) := scan_fraction s2 in
      let (exp, s4) := scan_exponent s3 in
      match frac, exp with
      | EmptyString, EmptyString =>
          Some (VInt (if String.eqb sign "-" then - decimal 0 int else decimal 0 int), s4)
      | _, _ => Some (VFloat (sign ++ int ++ frac ++ exp), s4)
      end
  end.

Definition scan_literal (s : string) : option (value * string) :=
  match strip "null" s with
  | Some r => Some (VNone, r)
  | None =>
  match strip "true" s with
  | Some r => Some (VBool true, r)
  | None =>
  match strip "false" s with
  | Some r => Some (VBool false, r)
  | None =>
  match strip "NaN" s with
  | Some r => Some (VFloat "nan", r)
  | None =>
  match strip "Infinity" s with
  | Some r => Some (VFloat "inf", r)
  | None =>
  match strip "-Infinity" s with
  | Some r => Some (VFloat "-inf", r)
  | None => scan_number s
  end end end end end end.

(** [dict(pairs)] *)
Definition dict_of_pairs (pairs : list (string * value)) : dict value :=
  fold_left (fun d kv => dict_set d (fst kv) (snd kv)) pairs [].

(** [scan_once] reads one value; [scan_items] the values of an array, from
    the first one to the closing bracket; [scan_pairs] the pairs of an
    object, from the quote of the first key to the closing brace.  Every
    nested call follows a consumed character, and [loads] gives twice the
    length of the text as fuel. *)
Fixpoint scan_once (fuel : nat) (s : string) {struct fuel} : option (value * string) :=
  match fuel with
  | O => None
  | S fuel' =>
      match s with
      | EmptyString => None
      | String c rest =>
          if Ascii.eqb c "034" then
            match scanstring (String.length rest) rest with
            | Some (x, r) => Some (VStr x, r)
            | None => None
            end
          else if Ascii.eqb c "{" then
            match skip rest with
            | String c' r =>
                if Ascii.eqb c' "}" then Some (VDict [], r)
                else if Ascii.eqb c' "034" then
                  match scan_pairs fuel' (String c' r) with
                  | Some (pairs, r') => Some (VDict (dict_of_pairs pairs), r')
                  | None => None
                  end
                else None
            | EmptyString => None
            end
          else if Ascii.eqb c "[" then
            match skip rest with
            | String c' r =>
                if Ascii.eqb c' "]" then Some (VList [], r)
                else
                  match scan_items fuel' (String c' r) with
                  | Some (items, r') => Some (VList items, r')
                  | None => None
                  end
            | EmptyString => None
            end
          else scan_literal s
      end
  end

with scan_items (fuel : nat) (s : string) {struct fuel} : option (list value * string) :=
  match fuel with
  | O => None
  | S fuel' =>
      match scan_once fuel' s with
      | Some (v, r) =>
          match skip r with
          | String c r' =>
              if Ascii.eqb c "]" then Some ([v], r')
              else if Ascii.eqb c "," then
                match scan_items fuel' (skip r') with
                | Some (vs, r'') => Some (v :: vs, r'')
                | None => None
                end
              else None
          | EmptyString => None
          end
      | None => None
      end
  end

with scan_pairs (fuel : nat) (s : string) {struct fuel}
  : option (list (string * value) * string) :=
  match fuel with
  | O => None
  | S fuel' =>
      match s with
      | String q rest =>
          if Ascii.eqb q "034" then
            match scanstring (String.length rest) rest with
            | Some (key, r) =>
                match skip r with
                | String c r1 =>
                    if Ascii.eqb c ":" then
                      match scan_once fuel' (skip r1) with
                      | Some (v, r2) =>
                          match skip r2 with
                          | String c' r3 =>
                              if Ascii.eqb c' "}" then Some ([(key, v)], r3)
                              else if Ascii.eqb c' "," then
                                match scan_pairs fuel' (skip r3) with
                                | Some (ps, r4) => Some ((key, v) :: ps, r4)
                                | None => None
                                end
                              else None
                          | EmptyString => None
                          end
                      | None => None
                      end
                    else None
                | EmptyString => None
                end
            | None => None
            end
          else None
      | EmptyString => None
      end
  end.

Definition loads (s : string) : outcome value :=
  match scan_once (2 * String.length s) (skip s) with
  | Some (v, r) =>
      match skip r with
      | EmptyString => Return v
      | String _ _ => Raise JSONDecodeError
      end
  | None => Raise JSONDecodeError
  end.

End Json.

(** Example bodies are written with an apostrophe where the JSON text has
    a double quote. *)
Fixpoint dq (s : string) : string :=
  match s with
  | String c s' => String (if Ascii.eqb c "'" then "034"%char else c) (dq s')
  | EmptyString => EmptyString
  end.

(** ** Responses and sessions *)

(** What [fetch_with_session] reads of an aiohttp response: [status] and
    the text [await response.text()] gives. *)
Record Response : Type := mkResponse {
  status : Z;
  text : string
}.

(** A session answers a GET by a response and records the URL asked. *)
Record Session : Type := mkSession {
  respond : string -> Response;
  requested : list string
}.

Definition session_get (session : Session) (url : string) : Response * Session :=
  (respond session url, mkSession (respond session) (requested session ++ [url])).

(** ** Request *)

(** [data[key]] for a string [key]: only a [dict] can be indexed by one. *)
Definition getitem (data : value) (key : string) : outcome value :=
  match data with
  | VDict d =>
      match dict_get d key with
      | Some v => Return v
      | None => Raise (KeyError key)
      end
  | _ => Raise TypeError
  end.

(** [type(data) == dict] *)
Definition is_dict (data : value) : bool :=
  match data with
  | VDict _ => true
  | _ => false
  end.

(** [key in data], for a [dict] *)
Definition contains (data : value) (key : string) : bool :=
  match data with
  | VDict d => dict_mem d key
  | _ => false
  end.

(** [data.get(key)], for a [dict] *)
Definition get (data : value) (key : string) : value :=
  match data with
  | VDict d =>
      match dict_get d key with
      | Some v => v
      | None => VNone
      end
  | _ => VNone
  end.

(** [v == s] for a string literal [s] *)
Definition eq_str (v : value) (s : string) : bool :=
  match v with
  | VStr x => String.eqb x s
  | _ => false
  end.

Module Request.

Record t : Type := mk {
  json_response : bool;
  retry_count : Z;
  route : Route.t;
  _data : value
}.

Definition __init__ (route : Route.t) (retry : Z) (json_response : bool) : t :=
  mk json_response retry route (VList []).

Definition data (self : t) : value := _data self.

Definition set_data (self : t) (data : value) : t :=
  mk (json_response self) (retry_count self) (route self) data.

Definition set_retry_count (self : t) (retry : Z) : t :=
  mk (json_response self) retry (route self) (_data self).

Section Fetch.

(** [json.loads] *)
Variable loads : string -> outcome value.

(** The loop of [get_json] over the path keys: a [KeyError] ends it with
    the empty string, any other exception goes through. *)
Fixpoint descend (data : value) (args : list string) : outcome value :=
  match args with
  | [] => Return data
  | key :: rest =>
      match getitem data key with
      | Return data' => descend data' rest
      | Raise (KeyError _) => Return (VStr "")
      | Raise e => Raise e
      end
  end.

(** [text] is a [str], so the comparison [text == None] of the source is
    never true and only the one with the empty string is kept. *)
Definition get_json (self : t) (response : Response) (args : list string)
  : outcome value :=
  let text := text response in
  if negb (json_response self) then Return (VStr text)
  else if String.eqb text "" then Return (VDict [])
  else
    data <- loads text ;;
    if (Z.of_nat (length args) =? 0) then Return data
    else descend data args.

(** [fetch_with_session]: what the call gives, the request after it and
    the session after it. *)
Definition fetch_with_session (self : t) (session : Session)
  : outcome value * t * Session :=
  match Route.check_params (route self) with
  | Raise e => (Raise e, self, session)
  | Return _ =>
      let (response, session) := session_get session (Route.route (route self)) in
      if status response =? 401 then
        (message <- get_json self response ["error"] ;;
         Raise (WrongApiKey message), self, session)
      else if existsb (Z.eqb (status response)) [302; 404] then
        (Raise (RouteNotFound (Route.route (route self) ++ " was not found.")
                  (status response)), self, session)
      else if negb (status response =? 200) then
        (message <- get_json self response ["error"] ;;
         Raise (HTTPError (status response) message), self, session)
      else if status response =? 200 then
        match get_json self response [] with
        | Raise e => (Raise e, self, session)
        | Return data =>
            if is_dict data && contains data "error" then
              if eq_str (get data "error") "Replay not available."
              then (Raise (ReplayUnavailable (get data "error")), self, session)
              else (Raise (HTTPError 400 (get data "error")), self, session)
            else (Return data, set_data self data, session)
        end
      else (Return VNone, self, session)
  end.

(** [fetch]: a session given is used and handed back; without one the
    call runs on a session of its own, [ClientSession], released when the
    call ends. *)
Definition fetch (ClientSession : Session) (self : t) (session : option Session)
  : outcome value * t * option Session :=
  match session with
  | Some session =>
      let '(result, self', session') := fetch_with_session self session in
      (result, self', Some session')
  | None =>
      let '(result, self', _) := fetch_with_session self ClientSession in
      (result, self', None)
  end.

End Fetch.

End Request.

(** ** BeatmapFile *)

Module BeatmapFile.

Definition is_upper (c : ascii) : bool := Json.between 65 90 c.

Definition lower (c : ascii) : ascii :=
  if is_upper c then ascii_of_N (N_of_ascii c + 32) else c.

(** The pattern before its group. *)
Definition regex_head : string := "osu file format v".

(** [match_ci p s]: what follows a prefix of [s] equal to [p] up to the
    case of letters.  This is [re.IGNORECASE] on ASCII text, the domain of
    this model ([is_ascii] below): on a [str] the flag also lets the long
    s match [s] and the dotless and dotted capital i match [i]. *)
Fixpoint match_ci (p s : string) : option string :=
  match p, s with
  | EmptyString, _ => Some s
  | String a p', String b s' =>
      if Ascii.eqb (lower a) (lower b) then match_ci p' s' else None
  | String _ _, EmptyString => None
  end.

(** [re.search(regex, s, re.IGNORECASE)] on ASCII text: group 1 of the
    leftmost match, the longest run of the digits 0 to 9 after the head;
    [None] without a match.  On a [str] the digit class also holds the
    decimal digits of other scripts, which no ASCII text contains and
    which are not modelled. *)
Fixpoint search (s : string) : option string :=
  match match_ci regex_head s with
  | Some rest => Some (fst (Json.span_digits rest))
  | None =>
      match s with
      | String _ s' => search s'
      | EmptyString => None
      end
  end.

(** [int] on what group 1 holds for an ASCII text, a run of the digits 0
    to 9: the empty string is not a number.  An interpreter that bounds
    the length of a decimal literal (4300 digits unless set otherwise)
    refuses a longer run; the bound is not modelled, and the statements
    that say [int] returns keep to runs within it. *)
Definition int (s : string) : outcome Z :=
  match s with
  | EmptyString => Raise ValueError
  | String _ _ => Return (Json.decimal 0 s)
  end.

(** [parse_version] on the content; [matches] is [None] without a match
    and has no [group]. *)
Definition parse_version (content : string) : outcome Z :=
  match search content with
  | None => Raise AttributeError
  | Some group1 => int group1
  end.

Record t : Type := mk {
  content : string;
  version : Z
}.

(** [BeatmapFile.__init__].  [BaseModel.__init__] is not part of the
    modelled files: [super_init] is what it gives on the same arguments.
    The content is [data.get('content', '')]; a value that is not a string
    is refused by [re.search]. *)
Definition __init__ (super_init : dict value -> outcome unit) (data : dict value)
  : outcome t :=
  _ <- super_init data ;;
  match dict_get data "content" with
  | None => version <- parse_version "" ;; Return (mk "" version)
  | Some (VStr content) =>
      version <- parse_version content ;; Return (mk content version)
  | Some _ => Raise TypeError
  end.

End BeatmapFile.

(** ** The statements of the specification *)

(** The URL as the specification words it: nothing after the path when
    there is neither a key nor a parameter; otherwise a question mark and
    the key, if any, then the parameters in their order, joined by an
    ampersand. *)
Definition route_spec (self : Route.t) : string :=
  let key_part :=
    if String.eqb (Route.api_key self) "" then []
    else [("k=" ++ Route.api_key self)%string] in
  let query :=
    key_part ++ map (fun kv => (fst kv ++ "=" ++ str (snd kv))%string)
                    (Route.parameters self) in
  match Route.api_key self, Route.parameters self with
  | EmptyString, [] => (Route.base self ++ Route.path self)%string
  | _, _ =>
      (Route.base self ++ Route.path self ++ "?" ++ String.concat "&" query)%string
  end.

(** [check_params] raising with whichever stored key is outside the
    allow-list. *)
Definition carries_every_rejected_key (self : Route.t) : Prop :=
  forall key,
    In key (dict_keys (Route.parameters self)) ->
    ~ In key Route.accepted_params ->
    Route.check_params self = Raise (InvalidArgument key).

(** The value at the end of a path of keys: every level on the way is a
    mapping that has the next key. *)
Fixpoint path_value (data : value) (keys : list string) (v : value) : Prop :=
  match keys with
  | [] => v = data
  | key :: rest =>
      exists d data',
        data = VDict d /\ dict_get d key = Some data' /\ path_value data' rest v
  end.

(** A key of the path is missing: the levels before it are mappings that
    have their key, and the level reached is a mapping without it. *)
Fixpoint path_missing (data : value) (keys : list string) : Prop :=
  match keys with
  | [] => False
  | key :: rest =>
      exists d,
        data = VDict d /\
        match dict_get d key with
        | None => True
        | Some data' => path_missing data' rest
        end
  end.

(** The number of requests a call of [fetch_with_session] sends. *)
Definition dispatches (loads : string -> outcome value)
  (self : Request.t) (session : Session) : Z :=
  Z.of_nat (length (requested (snd (Request.fetch_with_session loads self session))))
  - Z.of_nat (length (requested session)).

(** A text equal to the head of the pattern up to the case of letters. *)
Fixpoint lower_string (s : string) : string :=
  match s with
  | String c s' => String (BeatmapFile.lower c) (lower_string s')
  | EmptyString => EmptyString
  end.

Definition is_head (m : string) : Prop :=
  lower_string m = BeatmapFile.regex_head.


(** No occurrence of the head starts before the end of [pre]. *)
Definition leftmost (content pre : string) : Prop :=
  forall pre' m' rest',
    content = (pre' ++ m' ++ rest')%string -> is_head m' ->
    (String.length pre <= String.length pre')%nat.

Fixpoint all_digits (s : string) : bool :=
  match s with
  | String c s' => Json.is_digit c && all_digits s'
  | EmptyString => true
  end.

Definition no_digit_ahead (s : string) : Prop :=
  match s with
  | String c _ => Json.is_digit c = false
  | EmptyString => True
  end.

(** The keyword arguments that are not [None], in the order given. *)
Definition given (kwargs : list (string * option param)) : dict param :=
  flat_map (fun kv => match snd kv with
                      | Some v => [(fst kv, v)]
                      | None => []
                      end) kwargs.

(** The texts the model of [BeatmapFile] is about: ASCII characters
    only. *)
Fixpoint is_ascii (s : string) : bool :=
  match s with
  | String c s' => (N_of_ascii c <? 128)%N && is_ascii s'
  | EmptyString => true
  end.

(** What the key [error] gives for a response, in the three cases the
    extraction is made for: the text itself when [json_response] is false,
    an empty mapping for an empty text, and for a text read as a mapping
    its [error] field, or the empty string without one. *)
Inductive extracted (loads : string -> outcome value) (self : Request.t)
  (response : Response) : value -> Prop :=
| extracted_text :
    Request.json_response self = false ->
    extracted loads self response (VStr (text response))
| extracted_empty :
    Request.json_response self = true -> text response = "" ->
    extracted loads self response (VDict [])
| extracted_field (d : dict value) (message : value) :
    Request.json_response self = true -> text response <> "" ->
    loads (text response) = Return (VDict d) ->
    dict_get d "error" = Some message ->
    extracted loads self response message
| extracted_no_field (d : dict value) :
    Request.json_response self = true -> text response <> "" ->
    loads (text response) = Return (VDict d) ->
    dict_get d "error" = None ->
    extracted loads self response (VStr "").

(** ** The objects of the worked examples *)

Definition user_route : Route.t :=
  Route.__init__ "get_user" "abc" Route.default_base [("u", Some (PStr "peppy"))].

Definition unknown_route : Route.t :=
  Route.__init__ "get_user" "abc" Route.default_base
    [("x", Some (PInt 1)); ("y", Some (PInt 2))].

(** A session that answers every request by the given status and body. *)
Definition answering (status : Z) (body : string) : Session :=
  mkSession (fun _ => mkResponse status (dq body)) [].

(** * Route *)

Section DictFacts.

Context {V : Type}.

Lemma dict_get_set_same (d : dict V) (key : string) (v : V) :
  dict_get (dict_set d key v) key = Some v.
Proof.
  induction d as [|[k w] d IH]; simpl.
  - now rewrite String.eqb_refl.
  - destruct (String.eqb k key) eqn:E; simpl; now rewrite E.
Qed.

Lemma dict_get_set_other (d : dict V) (key k : string) (v : V) :
  k <> key -> dict_get (dict_set d key v) k = dict_get d k.
Proof.
  intros Hne. induction d as [|[k' w] d IH]; simpl.
  - destruct (String.eqb_spec key k); congruence.
  - destruct (String.eqb_spec k' key) as [->|Hk]; simpl.
    + destruct (String.eqb_spec key k); congruence.
    + now rewrite IH.
Qed.

Lemma dict_keys_set_present (d : dict V) (key : string) (v : V) :
  dict_mem d key = true -> dict_keys (dict_set d key v) = dict_keys d.
Proof.
  unfold dict_mem. induction d as [|[k w] d IH]; simpl; [discriminate|].
  destruct (String.eqb k key); simpl; intros H; [reflexivity|].
  f_equal. now apply IH.
Qed.

Lemma dict_keys_set_absent (d : dict V) (key : string) (v : V) :
  dict_mem d key = false -> dict_keys (dict_set d key v) = dict_keys d ++ [key].
Proof.
  unfold dict_mem. induction d as [|[k w] d IH]; simpl; [reflexivity|].
  destruct (String.eqb k key); simpl; intros H; [discriminate|].
  f_equal. now apply IH.
Qed.

Lemma dict_mem_In (d : dict V) (key : string) :
  dict_mem d key = true <-> In key (dict_keys d).
Proof.
  unfold dict_mem. induction d as [|[k w] d IH]; simpl.
  - split; [discriminate|tauto].
  - destruct (String.eqb_spec k key) as [->|Hk].
    + split; auto.
    + rewrite IH. split; [auto|intros [H|H]; [contradiction|exact H]].
Qed.

Lemma dict_set_nodup (d : dict V) (key : string) (v : V) :
  NoDup (dict_keys d) -> NoDup (dict_keys (dict_set d key v)).
Proof.
  intros H. destruct (dict_mem d key) eqn:E.
  - now rewrite dict_keys_set_present.
  - rewrite dict_keys_set_absent by exact E.
    apply NoDup_app; [exact H|repeat constructor; intros []|].
    intros k Hin [<-|[]]. apply dict_mem_In in Hin. congruence.
Qed.

Lemma dict_pop_get (d : dict V) (key : string) :
  fst (dict_pop d key) = dict_get d key.
Proof.
  induction d as [|[k w] d IH]; simpl; [reflexivity|].
  destruct (String.eqb k key); [reflexivity|].
  destruct (dict_pop d key). exact IH.
Qed.

Lemma dict_pop_keys (d : dict V) (key : string) :
  forall k, In k (dict_keys (snd (dict_pop d key))) -> In k (dict_keys d).
Proof.
  induction d as [|[k' w] d IH]; simpl; [tauto|].
  destruct (String.eqb k' key); simpl; [auto|].
  destruct (dict_pop d key) as [r d']. simpl in *.
  intros k [H|H]; auto.
Qed.

Lemma dict_pop_removes (d : dict V) (key : string) :
  NoDup (dict_keys d) -> ~ In key (dict_keys (snd (dict_pop d key))).
Proof.
  induction d as [|[k w] d IH]; simpl; [tauto|].
  intros H. inversion H as [|? ? Hk Hd]; subst.
  destruct (String.eqb_spec k key) as [->|Hne]; simpl; [exact Hk|].
  specialize (IH Hd). destruct (dict_pop d key) as [r d']. simpl in *.
  intros [E|E]; auto.
Qed.

Lemma dict_pop_nodup (d : dict V) (key : string) :
  NoDup (dict_keys d) -> NoDup (dict_keys (snd (dict_pop d key))).
Proof.
  induction d as [|[k w] d IH]; simpl; [auto|].
  intros H. inversion H as [|? ? Hk Hd]; subst.
  destruct (String.eqb k key); simpl; [exact Hd|].
  specialize (IH Hd). pose proof (dict_pop_keys d key) as Hsub.
  destruct (dict_pop d key) as [r d']. simpl in *.
  constructor; [|exact IH]. intros Hin. apply Hk. now apply Hsub.
Qed.

End DictFacts.

Lemma fold_left_snoc {A B : Type} (f : A -> B) (l : list A) (init : list B) :
  fold_left (fun acc x => acc ++ [f x]) l init = init ++ map f l.
Proof.
  revert init. induction l as [|x l IH]; intros init; simpl.
  - now rewrite app_nil_r.
  - rewrite IH, <- app_assoc. reflexivity.
Qed.

Lemma length_positive {A : Type} (l : list A) :
  (0 <? Z.of_nat (length l)) = match l with [] => false | _ :: _ => true end.
Proof.
  destruct l; simpl; [reflexivity|]. apply Z.ltb_lt. lia.
Qed.

Lemma accepted_In (key : string) :
  Route.accepted key = true <-> In key Route.accepted_params.
Proof.
  unfold Route.accepted. rewrite existsb_exists. split.
  - intros [x [Hin Heq]]. apply String.eqb_eq in Heq. now subst.
  - intros Hin. exists key. split; [exact Hin|apply String.eqb_refl].
Qed.

Lemma check_keys_return (keys : list string) :
  Route.check_keys keys = Return tt <->
  (forall key, In key keys -> In key Route.accepted_params).
Proof.
  induction keys as [|k keys IH]; simpl.
  - split; [intros _ key []|reflexivity].
  - destruct (Route.accepted k) eqn:E; simpl.
    + rewrite IH. split.
      * intros H key [<-|Hin]; [now apply accepted_In|now apply H].
      * intros H key Hin. apply H. now right.
    + split; [discriminate|].
      intros H. assert (Hk : In k Route.accepted_params) by (apply H; now left).
      apply accepted_In in Hk. congruence.
Qed.

Lemma check_keys_raise (keys : list string) (e : exn) :
  Route.check_keys keys = Raise e <->
  exists pre key post,
    e = InvalidArgument key /\ keys = pre ++ key :: post /\
    (forall k, In k pre -> In k Route.accepted_params) /\
    ~ In key Route.accepted_params.
Proof.
  induction keys as [|k keys IH]; simpl.
  - split; [discriminate|].
    intros (pre & key & post & _ & H & _). now destruct pre.
  - destruct (Route.accepted k) eqn:E; simpl.
    + rewrite IH. split.
      * intros (pre & key & post & He & Hk & Hpre & Hbad).
        exists (k :: pre), key, post. repeat split; auto.
        -- now rewrite Hk.
        -- intros k' [<-|Hin]; [now apply accepted_In|now apply Hpre].
      * intros (pre & key & post & He & Hk & Hpre & Hbad).
        destruct pre as [|p pre]; simpl in Hk; injection Hk as -> ->.
        -- apply accepted_In in E. contradiction.
        -- exists pre, key, post. repeat split; auto.
           intros k' Hin. apply Hpre. now right.
    + split.
      * intros [= <-]. exists [], k, keys. repeat split; auto.
        -- intros k' [].
        -- intros Hin. apply accepted_In in Hin. congruence.
      * intros (pre & key & post & He & Hk & Hpre & Hbad).
        destruct pre as [|p pre]; simpl in Hk; injection Hk as -> ->.
        -- now subst.
        -- assert (Hp : In p Route.accepted_params) by (apply Hpre; now left).
           apply accepted_In in Hp. congruence.
Qed.

(** The parameters of a route never hold a key twice. *)
Lemma init_nodup (path api_key base : string)
  (kwargs : list (string * option param)) :
  NoDup (dict_keys (Route.parameters (Route.__init__ path api_key base kwargs))).
Proof.
  unfold Route.__init__. simpl.
  assert (H : NoDup (dict_keys (@nil (string * param)))) by constructor.
  revert H. generalize (@nil (string * param)).
  induction kwargs as [|[k [v|]] kwargs IH]; intros d H; simpl; auto.
  apply IH. now apply dict_set_nodup.
Qed.

Lemma add_param_nodup (self : Route.t) (key : string) (v : option param) :
  NoDup (dict_keys (Route.parameters self)) ->
  NoDup (dict_keys (Route.parameters (Route.add_param self key v))).
Proof.
  destruct v as [v|]; simpl; [apply dict_set_nodup|auto].
Qed.

(** [remove_param] tells whether the key was stored, and the key is gone
    afterwards. *)
Lemma remove_param_spec (self : Route.t) (key : string) :
  NoDup (dict_keys (Route.parameters self)) ->
  let (removed, self') := Route.remove_param self key in
  removed = dict_mem (Route.parameters self) key /\
  ~ In key (dict_keys (Route.parameters self')) /\
  NoDup (dict_keys (Route.parameters self')).
Proof.
  intros H. unfold Route.remove_param, dict_mem.
  pose proof (dict_pop_get (Route.parameters self) key) as Hg.
  pose proof (dict_pop_removes (Route.parameters self) key H) as Hr.
  pose proof (dict_pop_nodup (Route.parameters self) key H) as Hn.
  destruct (dict_pop (Route.parameters self) key) as [r d']. simpl in *.
  subst r. now repeat split.
Qed.

(** C3.  The [route] string is the one the specification describes: base
    and path alone when the key and the parameters are both empty,
    otherwise followed by a question mark and by the key (when there is
    one) and the parameters in insertion order, each printed as it is and
    joined by ampersands. *)
Theorem route_is_route_spec (self : Route.t) :
  Route.route self = route_spec self.
Proof.
  unfold Route.route, route_spec.
  rewrite fold_left_snoc, length_positive.
  destruct (Route.api_key self) as [|c k], (Route.parameters self) as [|kv ps];
    reflexivity.
Qed.

Lemma route_without_query (base path : string) :
  Route.route (Route.__init__ path "" base []) = (base ++ path)%string.
Proof. reflexivity. Qed.

Example route_example (base path : string) :
  Route.route (Route.__init__ path "abc" base
                 [("a", Some (PInt 1)); ("m", None); ("h", Some (PInt 2))])
  = (base ++ path ++ "?k=abc&a=1&h=2")%string.
Proof. reflexivity. Qed.

Example route_not_escaped :
  Route.route (Route.__init__ "get_user" "" Route.default_base
                 [("u", Some (PStr "a b&c=d?"))])
  = "https://osu.ppy.sh/api/get_user?u=a b&c=d?".
Proof. reflexivity. Qed.

(** C4, as it holds.  [check_params] returns exactly when every stored key
    is in the allow-list; it raises exactly when some stored key is not,
    and the exception is [InvalidArgument] with the first such key in
    insertion order. *)
Theorem check_params_first_rejected (self : Route.t) :
  let keys := dict_keys (Route.parameters self) in
  (Route.check_params self = Return tt <->
   forall key, In key keys -> In key Route.accepted_params) /\
  (raises (Route.check_params self) <->
   exists key, In key keys /\ ~ In key Route.accepted_params) /\
  (forall e, Route.check_params self = Raise e <->
   exists pre key post,
     e = InvalidArgument key /\ keys = pre ++ key :: post /\
     (forall k, In k pre -> In k Route.accepted_params) /\
     ~ In key Route.accepted_params).
Proof.
  cbv zeta. unfold Route.check_params.
  split; [apply check_keys_return|]. split; [|intros e; apply check_keys_raise].
  split.
  - intros [e He]. apply check_keys_raise in He.
    destruct He as (pre & key & post & _ & Hk & _ & Hbad).
    exists key. split; [|exact Hbad]. rewrite Hk. apply in_elt.
  - intros (key & Hin & Hbad).
    destruct (Route.check_keys _) as [[]|e] eqn:E; [|now exists e].
    rewrite check_keys_return in E. elim Hbad. now apply E.
Qed.

(** C4 as stated fails with two rejected keys: the second is stored and
    outside the allow-list, and the exception carries the first. *)
Lemma check_params_second_rejected_key :
  ~ carries_every_rejected_key unknown_route.
Proof.
  intros H. specialize (H "y"). simpl in H.
  assert (E : Raise (A := unit) (InvalidArgument "x") = Raise (InvalidArgument "y")).
  { apply H; [now right; left|].
    intros Hin. apply accepted_In in Hin. discriminate. }
  discriminate.
Qed.

(** With a single rejected key the exception carries that key. *)
Lemma check_params_only_rejected_key (self : Route.t) (key : string) :
  In key (dict_keys (Route.parameters self)) ->
  ~ In key Route.accepted_params ->
  (forall k, In k (dict_keys (Route.parameters self)) ->
             ~ In k Route.accepted_params -> k = key) ->
  Route.check_params self = Raise (InvalidArgument key).
Proof.
  intros Hin Hbad Honly. unfold Route.check_params in *.
  destruct (Route.check_keys _) as [[]|e] eqn:E.
  - rewrite check_keys_return in E. elim Hbad. now apply E.
  - pose proof E as E'. apply check_keys_raise in E'.
    destruct E' as (pre & k & post & -> & Hk & _ & Hkbad).
    rewrite (Honly k); auto. rewrite Hk. apply in_elt.
Qed.

(** C8.  [add_param] with [None] gives the route back; with a value it
    stores the value under the key, leaves the other keys as they were,
    keeps the place of a key already present and puts a new key last. *)
Theorem add_param_upsert (self : Route.t) (key : string) :
  Route.add_param self key None = self /\
  forall v : param,
    let self' := Route.add_param self key (Some v) in
    dict_get (Route.parameters self') key = Some v /\
    (forall k, k <> key ->
       dict_get (Route.parameters self') k = dict_get (Route.parameters self) k) /\
    dict_keys (Route.parameters self') =
      (if dict_mem (Route.parameters self) key
       then dict_keys (Route.parameters self)
       else dict_keys (Route.parameters self) ++ [key]) /\
    Route.base self' = Route.base self /\
    Route.path self' = Route.path self /\
    Route.api_key self' = Route.api_key self.
Proof.
  split; [reflexivity|]. intros v. cbv zeta. simpl.
  split; [apply dict_get_set_same|].
  split; [intros k Hk; now apply dict_get_set_other|].
  split; [|auto].
  destruct (dict_mem (Route.parameters self) key) eqn:E.
  - now apply dict_keys_set_present.
  - now apply dict_keys_set_absent.
Qed.

Example add_param_example :
  let r := Route.__init__ "get_user" "" Route.default_base [("u", Some (PStr "peppy"))] in
  Route.parameters (Route.add_param r "u" None) = [("u", PStr "peppy")] /\
  Route.parameters (Route.add_param r "m" None) = [("u", PStr "peppy")] /\
  Route.parameters (Route.add_param r "m" (Some (PInt 0))) = [("u", PStr "peppy"); ("m", PInt 0)] /\
  Route.parameters (Route.add_param r "u" (Some (PStr "x"))) = [("u", PStr "x")].
Proof. repeat split. Qed.

(** * Request *)

Section FetchFacts.

Variable loads : string -> outcome value.

Lemma fetch_rejected (self : Request.t) (session : Session) (e : exn) :
  Route.check_params (Request.route self) = Raise e ->
  Request.fetch_with_session loads self session = (Raise e, self, session).
Proof.
  intros H. unfold Request.fetch_with_session. now rewrite H.
Qed.

(** The outcome of the branch on the status, once the parameters passed. *)
Lemma fetch_dispatched (self : Request.t) (session : Session) :
  Route.check_params (Request.route self) = Return tt ->
  let url := Route.route (Request.route self) in
  let response := respond session url in
  let session' := mkSession (respond session) (requested session ++ [url]) in
  Request.fetch_with_session loads self session =
    if status response =? 401 then
      (message <- Request.get_json loads self response ["error"] ;;
       Raise (WrongApiKey message), self, session')
    else if (status response =? 302) || (status response =? 404) then
      (Raise (RouteNotFound (url ++ " was not found.") (status response)),
       self, session')
    else if negb (status response =? 200) then
      (message <- Request.get_json loads self response ["error"] ;;
       Raise (HTTPError (status response) message), self, session')
    else
      match Request.get_json loads self response [] with
      | Raise e => (Raise e, self, session')
      | Return data =>
          match data with
          | VDict d =>
              match dict_get d "error" with
              | Some message =>
                  if eq_str message "Replay not available."
                  then (Raise (ReplayUnavailable message), self, session')
                  else (Raise (HTTPError 400 message), self, session')
              | None => (Return data, Request.set_data self data, session')
              end
          | _ => (Return data, Request.set_data self data, session')
          end
      end.
Proof.
  intros H. cbv zeta. unfold Request.fetch_with_session, session_get.
  rewrite H. simpl existsb. rewrite orb_false_r.
  destruct (status _ =? 401); [reflexivity|].
  destruct ((status _ =? 302) || (status _ =? 404)); [reflexivity|].
  destruct (status _ =? 200) eqn:E200; simpl; [|reflexivity].
  destruct (Request.get_json _ _ _ _) as [data|e]; [|reflexivity].
  destruct data; try reflexivity.
  simpl. unfold dict_mem. now destruct (dict_get items "error").
Qed.

Lemma get_json_raw (self : Request.t) (response : Response) (args : list string) :
  Request.json_response self = false ->
  Request.get_json loads self response args = Return (VStr (text response)).
Proof.
  intros H. unfold Request.get_json. now rewrite H.
Qed.

Lemma get_json_empty (self : Request.t) (response : Response) (args : list string) :
  Request.json_response self = true -> text response = "" ->
  Request.get_json loads self response args = Return (VDict []).
Proof.
  intros H E. unfold Request.get_json. now rewrite H, E.
Qed.

Lemma get_json_parsed (self : Request.t) (response : Response) (args : list string) :
  Request.json_response self = true -> text response <> "" ->
  Request.get_json loads self response args =
    (data <- loads (text response) ;; Request.descend data args).
Proof.
  intros H E. unfold Request.get_json. rewrite H. simpl.
  destruct (String.eqb_spec (text response) ""); [contradiction|].
  destruct (loads _) as [data|e]; simpl; [|reflexivity].
  now destruct args.
Qed.

Lemma descend_path_value (data : value) (keys : list string) (v : value) :
  path_value data keys v -> Request.descend data keys = Return v.
Proof.
  revert data. induction keys as [|key rest IH]; simpl; intros data H.
  - now subst.
  - destruct H as (d & data' & -> & Hget & H). simpl. rewrite Hget. now apply IH.
Qed.

Lemma descend_path_missing (data : value) (keys : list string) :
  path_missing data keys -> Request.descend data keys = Return (VStr "").
Proof.
  revert data. induction keys as [|key rest IH]; simpl; intros data H.
  - contradiction.
  - destruct H as (d & -> & H). simpl.
    destruct (dict_get d key) as [data'|]; [now apply IH|reflexivity].
Qed.

(** [descend] raises nothing but [TypeError], and only at a level that is
    not a mapping. *)
Lemma descend_raise (data : value) (keys : list string) (e : exn) :
  Request.descend data keys = Raise e -> e = TypeError.
Proof.
  revert data. induction keys as [|key rest IH]; simpl; intros data H.
  - discriminate.
  - destruct data; simpl in H; try congruence.
    destruct (dict_get items key) as [data'|]; [now apply IH in H|discriminate].
Qed.

(** C7.  With [json_response] false [get_json] gives the text of the
    response back as it is, whatever the text and whatever the keys asked
    for; the reader is not consulted. *)
Theorem get_json_text_unparsed (self : Request.t) (response : Response)
  (args : list string) :
  Request.json_response self = false ->
  Request.get_json loads self response args = Return (VStr (text response)) /\
  forall loads' : string -> outcome value,
    Request.get_json loads' self response args =
    Request.get_json loads self response args.
Proof.
  intros H. split; [now apply get_json_raw|].
  intros loads'. unfold Request.get_json. now rewrite H.
Qed.

(** C5, as it holds.  With [json_response] true and a text that is not
    empty and that the reader parses, [get_json] with a path of keys that
    is not empty gives the value at the end of the path when every key is
    there, and the empty string as soon as a mapping on the way lacks its
    key. *)
Theorem get_json_path (self : Request.t) (response : Response)
  (args : list string) (data : value) :
  Request.json_response self = true ->
  text response <> "" ->
  args <> [] ->
  loads (text response) = Return data ->
  (forall v, path_value data args v ->
     Request.get_json loads self response args = Return v) /\
  (path_missing data args ->
     Request.get_json loads self response args = Return (VStr "")).
Proof.
  intros Hj Ht Ha Hl. rewrite get_json_parsed, Hl by assumption. simpl.
  split; [intros v; apply descend_path_value|apply descend_path_missing].
Qed.

(** C1, as it holds.  Once the parameters have passed: a status 302 or
    404 raises [RouteNotFound] with the URL and the status; and for a
    response the key [error] is extracted from, that is with
    [json_response] false (the text itself), with an empty text (an empty
    mapping) or with a text read as a mapping (its [error] field, or the
    empty string without one), a status 401 raises [WrongApiKey] with
    what was extracted and any other status but 200, 302 and 404 raises
    [HTTPError] with the status and what was extracted. *)
Theorem fetch_error_status (self : Request.t) (session : Session) :
  Route.check_params (Request.route self) = Return tt ->
  let url := Route.route (Request.route self) in
  let response := respond session url in
  let result := fst (fst (Request.fetch_with_session loads self session)) in
  (status response = 302 \/ status response = 404 ->
   result = Raise (RouteNotFound (url ++ " was not found.") (status response))) /\
  (forall message,
     extracted loads self response message ->
     (status response = 401 -> result = Raise (WrongApiKey message)) /\
     (status response <> 401 -> status response <> 302 ->
      status response <> 404 -> status response <> 200 ->
      result = Raise (HTTPError (status response) message))).
Proof.
  intros Hc. cbv zeta. rewrite (fetch_dispatched _ _ Hc). cbv zeta.
  set (response := respond session _). split.
  - intros [E|E]; rewrite E; reflexivity.
  - intros message Hx.
    assert (Hm : Request.get_json loads self response ["error"] = Return message).
    { destruct Hx as [Hj|Hj Ht|d message Hj Ht Hl Hd|d Hj Ht Hl Hd].
      - now apply get_json_raw.
      - now apply get_json_empty.
      - rewrite get_json_parsed, Hl by assumption. simpl. now rewrite Hd.
      - rewrite get_json_parsed, Hl by assumption. simpl. now rewrite Hd. }
    rewrite Hm. split.
    + intros E. now rewrite E.
    + intros H401 H302 H404 H200.
      apply Z.eqb_neq in H401, H302, H404, H200.
      now rewrite H401, H302, H404, H200.
Qed.

End FetchFacts.

Section FetchState.

Variable loads : string -> outcome value.

(** C2.  A response with status 200 whose text the reader parses to a
    mapping with an [error] key raises [ReplayUnavailable] with the
    message when the message is the string [Replay not available.], and
    [HTTPError] with the code 400 and the message otherwise; the request
    is left as it was, so the body is not stored. *)
Theorem fetch_remote_error (self : Request.t) (session : Session)
  (d : dict value) (message : value) :
  let response := respond session (Route.route (Request.route self)) in
  Route.check_params (Request.route self) = Return tt ->
  status response = 200 ->
  Request.json_response self = true ->
  text response <> "" ->
  loads (text response) = Return (VDict d) ->
  dict_get d "error" = Some message ->
  let '(result, self', _) := Request.fetch_with_session loads self session in
  (message = VStr "Replay not available." ->
   result = Raise (ReplayUnavailable message)) /\
  (message <> VStr "Replay not available." ->
   result = Raise (HTTPError 400 message)) /\
  self' = self /\
  Request.data self' = Request.data self.
Proof.
  cbv zeta. intros Hc Hs Hj Ht Hl Hd.
  rewrite (fetch_dispatched _ _ _ Hc). cbv zeta. rewrite Hs. simpl.
  rewrite get_json_parsed, Hl by assumption. simpl. rewrite Hd.
  destruct (eq_str message "Replay not available.") eqn:E.
  - destruct message; try discriminate. simpl in E. apply String.eqb_eq in E.
    subst. repeat split; congruence.
  - repeat split; try congruence. intros ->. simpl in E. discriminate.
Qed.

(** What a call that returns has gone through. *)
Lemma fetch_return (self : Request.t) (session : Session) (v : value) :
  fst (fst (Request.fetch_with_session loads self session)) = Return v <->
  Route.check_params (Request.route self) = Return tt /\
  status (respond session (Route.route (Request.route self))) = 200 /\
  Request.get_json loads self
    (respond session (Route.route (Request.route self))) [] = Return v /\
  (is_dict v && contains v "error") = false.
Proof.
  destruct (Route.check_params (Request.route self)) as [[]|e] eqn:Hc.
  - rewrite (fetch_dispatched _ _ _ Hc). cbv zeta.
    set (response := respond session _).
    destruct (status response =? 401) eqn:E401.
    { apply Z.eqb_eq in E401.
      destruct (Request.get_json loads self response ["error"]); simpl;
        (split; [discriminate|intros (_ & H & _); lia]). }
    destruct (status response =? 302) eqn:E302.
    { apply Z.eqb_eq in E302. simpl.
      split; [discriminate|intros (_ & H & _); lia]. }
    destruct (status response =? 404) eqn:E404.
    { apply Z.eqb_eq in E404. simpl.
      split; [discriminate|intros (_ & H & _); lia]. }
    destruct (status response =? 200) eqn:E200; simpl.
    2:{ apply Z.eqb_neq in E200.
        destruct (Request.get_json loads self response ["error"]); simpl;
          (split; [discriminate|intros (_ & H & _); contradiction]). }
    apply Z.eqb_eq in E200.
    destruct (Request.get_json loads self response []) as [w|e]; simpl.
    2:{ split; [discriminate|intros (_ & _ & H & _); discriminate]. }
    destruct w; simpl;
      try (split; [intros [= <-]; now repeat split
                  |intros (_ & _ & [= <-] & _); reflexivity]).
    unfold dict_mem.
    destruct (dict_get items "error") as [message|] eqn:Hd.
    + destruct (eq_str message _); simpl;
        (split; [discriminate|]);
        intros (_ & _ & [= <-] & H); simpl in H; unfold dict_mem in H;
        rewrite Hd in H; discriminate.
    + simpl. split.
      * intros [= <-]. repeat split; auto. simpl. unfold dict_mem. now rewrite Hd.
      * intros (_ & _ & [= <-] & _). reflexivity.
  - rewrite (fetch_rejected _ _ _ _ Hc). simpl.
    split; [discriminate|intros [H _]; discriminate].
Qed.

(** C6.  The stored data is the empty list at first; a call that returns
    a value has stored that value and changed nothing else; a call that
    raises, whatever the exception, leaves the request as it was; and a
    call returns exactly when the parameters pass, the status is 200 and
    the body read is not a mapping with an [error] key. *)
Theorem data_is_last_payload (self : Request.t) (session : Session) :
  (forall route retry json_response,
     Request.data (Request.__init__ route retry json_response) = VList []) /\
  (forall v self' session',
     Request.fetch_with_session loads self session = (Return v, self', session') ->
     Request.data self' = v /\ self' = Request.set_data self v) /\
  (forall e self' session',
     Request.fetch_with_session loads self session = (Raise e, self', session') ->
     self' = self /\ Request.data self' = Request.data self) /\
  (forall v,
     fst (fst (Request.fetch_with_session loads self session)) = Return v <->
     Route.check_params (Request.route self) = Return tt /\
     status (respond session (Route.route (Request.route self))) = 200 /\
     Request.get_json loads self
       (respond session (Route.route (Request.route self))) [] = Return v /\
     (is_dict v && contains v "error") = false).
Proof.
  split; [reflexivity|]. split; [|split; [|apply fetch_return]].
  - intros v self' session' H.
    destruct (Route.check_params (Request.route self)) as [[]|e] eqn:Hc.
    + rewrite (fetch_dispatched _ _ _ Hc) in H. cbv zeta in H.
      repeat match type of H with
             | (if ?b then _ else _) = _ => destruct b
             | (bind ?m _, _, _) = _ => destruct m; simpl in H
             | match ?m with _ => _ end = _ => destruct m
             end; inversion H; subst; auto.
    + rewrite (fetch_rejected _ _ _ _ Hc) in H. discriminate.
  - intros e self' session' H.
    destruct (Route.check_params (Request.route self)) as [[]|e'] eqn:Hc.
    + rewrite (fetch_dispatched _ _ _ Hc) in H. cbv zeta in H.
      repeat match type of H with
             | (if ?b then _ else _) = _ => destruct b
             | (bind ?m _, _, _) = _ => destruct m; simpl in H
             | match ?m with _ => _ end = _ => destruct m
             end; inversion H; subst; auto.
    + rewrite (fetch_rejected _ _ _ _ Hc) in H. inversion H; subst; auto.
Qed.

Lemma check_params_set_retry_count (self : Request.t) (retry : Z) :
  Request.route (Request.set_retry_count self retry) = Request.route self.
Proof. reflexivity. Qed.

Lemma get_json_set_retry_count (self : Request.t) (retry : Z)
  (response : Response) (args : list string) :
  Request.get_json loads (Request.set_retry_count self retry) response args =
  Request.get_json loads self response args.
Proof. reflexivity. Qed.

(** C9, as it holds.  Two requests that differ by their [retry_count]
    alone give the same outcome and leave the same session, and the
    requests they become differ by their [retry_count] alone; a call sends
    one request when the parameters pass and none when they are
    rejected. *)
Theorem retry_count_is_inert (self : Request.t) (session : Session) (retry : Z) :
  let '(result, self', session') := Request.fetch_with_session loads self session in
  Request.fetch_with_session loads (Request.set_retry_count self retry) session =
    (result, Request.set_retry_count self' retry, session') /\
  Request.retry_count self' = Request.retry_count self /\
  dispatches loads (Request.set_retry_count self retry) session =
    dispatches loads self session /\
  dispatches loads self session =
    match Route.check_params (Request.route self) with
    | Return _ => 1
    | Raise _ => 0
    end.
Proof.
  unfold dispatches.
  destruct (Route.check_params (Request.route self)) as [[]|e] eqn:Hc.
  - assert (Hc' : Route.check_params
                    (Request.route (Request.set_retry_count self retry)) = Return tt)
      by exact Hc.
    rewrite (fetch_dispatched _ _ _ Hc'), (fetch_dispatched _ _ _ Hc). cbv zeta.
    rewrite !get_json_set_retry_count, check_params_set_retry_count.
    set (response := respond session _).
    assert (Hlen : Z.of_nat (length (requested session ++
                     [Route.route (Request.route self)]))
                   - Z.of_nat (length (requested session)) = 1)
      by (rewrite length_app; simpl; lia).
    destruct (status response =? 401).
    { destruct (Request.get_json loads self response ["error"]); simpl; auto. }
    destruct ((status response =? 302) || (status response =? 404)).
    { simpl; auto. }
    destruct (negb (status response =? 200)).
    { destruct (Request.get_json loads self response ["error"]); simpl; auto. }
    destruct (Request.get_json loads self response []) as [data|e]; [|simpl; auto].
    destruct data; simpl; auto.
    destruct (dict_get items "error") as [message|]; simpl; auto.
    destruct (eq_str message "Replay not available."); simpl; auto.
  - assert (Hc' : Route.check_params
                    (Request.route (Request.set_retry_count self retry)) = Raise e)
      by exact Hc.
    rewrite (fetch_rejected _ _ _ _ Hc'), (fetch_rejected _ _ _ _ Hc). simpl.
    repeat split; lia.
Qed.

End FetchState.

(** * BeatmapFile *)

Lemma match_ci_some (p s rest : string) :
  BeatmapFile.match_ci p s = Some rest ->
  exists m, s = (m ++ rest)%string /\ lower_string m = lower_string p.
Proof.
  revert s. induction p as [|a p IH]; intros s H.
  - simpl in H. injection H as <-. now exists EmptyString.
  - destruct s as [|b s]; simpl in H; [discriminate|].
    destruct (Ascii.eqb_spec (BeatmapFile.lower a) (BeatmapFile.lower b)) as [E|E];
      [|discriminate].
    apply IH in H. destruct H as (m & -> & Hm).
    exists (String b m). simpl. now rewrite Hm, E.
Qed.

Lemma match_ci_complete (p m rest : string) :
  lower_string m = lower_string p ->
  BeatmapFile.match_ci p (m ++ rest) = Some rest.
Proof.
  revert m. induction p as [|a p IH]; intros m H.
  - destruct m; [reflexivity|discriminate].
  - destruct m as [|b m]; [discriminate|]. simpl in *.
    injection H as Hc Hm. rewrite Hc, Ascii.eqb_refl. now apply IH.
Qed.

Lemma regex_head_lower :
  lower_string BeatmapFile.regex_head = BeatmapFile.regex_head.
Proof. reflexivity. Qed.

Lemma span_digits_sound (s : string) :
  let (ds, rest) := Json.span_digits s in
  s = (ds ++ rest)%string /\ all_digits ds = true /\ no_digit_ahead rest.
Proof.
  induction s as [|c s IH]; simpl; [auto|].
  destruct (Json.is_digit c) eqn:E.
  - destruct (Json.span_digits s) as [ds rest]. destruct IH as (-> & Hd & Hr).
    simpl. now rewrite E.
  - simpl. auto.
Qed.


Lemma search_unfold (s : string) :
  BeatmapFile.search s =
    match BeatmapFile.match_ci BeatmapFile.regex_head s with
    | Some rest => Some (fst (Json.span_digits rest))
    | None =>
        match s with
        | String _ s' => BeatmapFile.search s'
        | EmptyString => None
        end
    end.
Proof. now destruct s. Qed.

Lemma search_some (s g : string) :
  BeatmapFile.search s = Some g ->
  exists pre m rest,
    s = (pre ++ m ++ rest)%string /\ is_head m /\ leftmost s pre /\
    g = fst (Json.span_digits rest).
Proof.
  induction s as [|c s IH]; rewrite search_unfold.
  - discriminate.
  - destruct (BeatmapFile.match_ci _ (String c s)) as [rest|] eqn:E.
    + intros [= <-]. apply match_ci_some in E. destruct E as (m & Hs & Hm).
      exists EmptyString, m, rest. repeat split; auto.
      intros pre' m' rest' _ _. simpl. lia.
    + intros H. apply IH in H. destruct H as (pre & m & rest & -> & Hm & Hl & ->).
      exists (String c pre), m, rest. repeat split; auto.
      intros pre' m' rest' Hs Hm'. destruct pre' as [|c' pre'].
      * simpl in Hs. rewrite Hs in E.
        unfold is_head in Hm'. rewrite <- regex_head_lower in Hm'.
        rewrite (match_ci_complete _ _ _ Hm') in E. discriminate.
      * simpl in Hs. injection Hs as <- Hs. simpl.
        apply le_n_S. now apply (Hl pre' m' rest').
Qed.


Lemma search_none (s : string) :
  BeatmapFile.search s = None ->
  forall pre m rest, s = (pre ++ m ++ rest)%string -> ~ is_head m.
Proof.
  induction s as [|c s IH]; rewrite search_unfold.
  - intros _ pre m rest Hs Hm. destruct pre; [|discriminate].
    destruct m; [discriminate Hm|discriminate Hs].
  - destruct (BeatmapFile.match_ci _ (String c s)) as [r|] eqn:E; [discriminate|].
    intros H pre m rest Hs Hm. destruct pre as [|c' pre].
    + simpl in Hs. rewrite Hs in E. unfold is_head in Hm.
      rewrite <- regex_head_lower in Hm.
      rewrite (match_ci_complete _ _ _ Hm) in E. discriminate.
    + simpl in Hs. injection Hs as _ Hs. exact (IH H pre m rest Hs Hm).
Qed.

(** What [parse_version] returns, when it returns. *)
Lemma parse_version_return (content : string) (n : Z) :
  BeatmapFile.parse_version content = Return n ->
  exists pre m ds rest,
    content = (pre ++ m ++ ds ++ rest)%string /\ is_head m /\
    leftmost content pre /\ ds <> EmptyString /\ all_digits ds = true /\
    no_digit_ahead rest /\ n = Json.decimal 0 ds.
Proof.
  unfold BeatmapFile.parse_version.
  destruct (BeatmapFile.search content) as [g|] eqn:E; [|discriminate].
  apply search_some in E. destruct E as (pre & m & r & Hs & Hm & Hl & ->).
  pose proof (span_digits_sound r) as Hr.
  destruct (Json.span_digits r) as [ds rest]. destruct Hr as (-> & Hd & Hr).
  simpl fst. intros H. exists pre, m, ds, rest.
  destruct ds as [|d ds]; simpl in H; [discriminate|]. injection H as <-.
  repeat split; auto. discriminate.
Qed.


(** * Worked examples *)

Lemma fetch_error_status_witness :
  Route.check_params user_route = Return tt /\
  fst (fst (Request.fetch_with_session Json.loads
              (Request.__init__ user_route 5 true)
              (answering 401 "{'error':'bad key'}")))
  = Raise (WrongApiKey (VStr "bad key")) /\
  fst (fst (Request.fetch_with_session Json.loads
              (Request.__init__ user_route 5 true)
              (answering 500 "")))
  = Raise (HTTPError 500 (VDict [])).
Proof.
  split; [reflexivity|]. split.
  - pose proof (fetch_error_status Json.loads
                  (Request.__init__ user_route 5 true)
                  (answering 401 "{'error':'bad key'}") eq_refl) as H.
    cbv zeta in H. destruct H as (_ & H).
    apply (H (VStr "bad key")); [|reflexivity].
    apply extracted_field with (d := [("error", VStr "bad key")]);
      try reflexivity. discriminate.
  - pose proof (fetch_error_status Json.loads
                  (Request.__init__ user_route 5 true)
                  (answering 500 "") eq_refl) as H.
    cbv zeta in H. destruct H as (_ & H).
    apply (H (VDict [])); try discriminate.
    apply extracted_empty; reflexivity.
Defined.

(** C1 as stated fails when [json_response] is false: the body has an
    [error] field, and [WrongApiKey] carries the whole text instead. *)
Lemma wrong_api_key_carries_text :
  Json.loads (dq "{'error':'bad key'}") = Return (VDict [("error", VStr "bad key")]) /\
  fst (fst (Request.fetch_with_session Json.loads
              (Request.__init__ user_route 5 false)
              (answering 401 "{'error':'bad key'}")))
  = Raise (WrongApiKey (VStr (dq "{'error':'bad key'}"))) /\
  VStr (dq "{'error':'bad key'}") <> VStr "bad key".
Proof.
  split; [reflexivity|]. split; [reflexivity|discriminate].
Qed.

Example fetch_not_found :
  fst (fst (Request.fetch_with_session Json.loads
              (Request.__init__ user_route 5 true) (answering 404 "")))
  = Raise (RouteNotFound
             "https://osu.ppy.sh/api/get_user?k=abc&u=peppy was not found." 404).
Proof. reflexivity. Qed.

Lemma fetch_remote_error_witness :
  fst (fst (Request.fetch_with_session Json.loads
              (Request.__init__ user_route 5 true)
              (answering 200 "{'error':'Replay not available.'}")))
  = Raise (ReplayUnavailable (VStr "Replay not available.")) /\
  fst (fst (Request.fetch_with_session Json.loads
              (Request.__init__ user_route 5 true)
              (answering 200 "{'error':'something else'}")))
  = Raise (HTTPError 400 (VStr "something else")).
Proof.
  split.
  - assert (Ht : dq "{'error':'Replay not available.'}" <> "") by discriminate.
    pose proof (fetch_remote_error Json.loads
                  (Request.__init__ user_route 5 true)
                  (answering 200 "{'error':'Replay not available.'}")
                  [("error", VStr "Replay not available.")]
                  (VStr "Replay not available.")
                  eq_refl eq_refl eq_refl Ht eq_refl eq_refl) as H.
    revert H.
    destruct (Request.fetch_with_session _ _ _) as [[result self'] session'].
    intros (H & _). now apply H.
  - assert (Ht : dq "{'error':'something else'}" <> "") by discriminate.
    pose proof (fetch_remote_error Json.loads
                  (Request.__init__ user_route 5 true)
                  (answering 200 "{'error':'something else'}")
                  [("error", VStr "something else")]
                  (VStr "something else")
                  eq_refl eq_refl eq_refl Ht eq_refl eq_refl) as H.
    revert H.
    destruct (Request.fetch_with_session _ _ _) as [[result self'] session'].
    intros (_ & H & _). apply H. discriminate.
Defined.

Lemma get_json_path_witness :
  Request.get_json Json.loads (Request.__init__ user_route 5 true)
    (mkResponse 200 (dq "{'a':{'b':5}}")) ["a"; "b"] = Return (VInt 5) /\
  Request.get_json Json.loads (Request.__init__ user_route 5 true)
    (mkResponse 200 (dq "{'a':{}}")) ["a"; "b"] = Return (VStr "").
Proof.
  split.
  - assert (Ht : dq "{'a':{'b':5}}" <> "") by discriminate.
    assert (Ha : ["a"; "b"] <> @nil string) by discriminate.
    apply (get_json_path Json.loads (Request.__init__ user_route 5 true)
             (mkResponse 200 (dq "{'a':{'b':5}}")) ["a"; "b"]
             (VDict [("a", VDict [("b", VInt 5)])]) eq_refl Ht Ha eq_refl).
    simpl. eexists _, _. split; [reflexivity|]. split; [reflexivity|].
    eexists _, _. split; [reflexivity|]. split; reflexivity.
  - assert (Ht : dq "{'a':{}}" <> "") by discriminate.
    assert (Ha : ["a"; "b"] <> @nil string) by discriminate.
    apply (get_json_path Json.loads (Request.__init__ user_route 5 true)
             (mkResponse 200 (dq "{'a':{}}")) ["a"; "b"]
             (VDict [("a", VDict [])]) eq_refl Ht Ha eq_refl).
    simpl. eexists. split; [reflexivity|]. simpl. eexists. split; [reflexivity|].
    exact I.
Defined.

(** C5 as stated fails where a level of the path is not a mapping: the
    body parses, the key [b] is nowhere under [a], and [get_json]
    raises. *)
Lemma get_json_raises_under_a_number :
  Json.loads (dq "{'a':5}") = Return (VDict [("a", VInt 5)]) /\
  Request.get_json Json.loads (Request.__init__ user_route 5 true)
    (mkResponse 200 (dq "{'a':5}")) ["a"; "b"] = Raise TypeError.
Proof. split; reflexivity. Qed.

Lemma get_json_text_unparsed_witness :
  Request.get_json Json.loads (Request.__init__ user_route 5 false)
    (mkResponse 401 (dq "{'error':'bad key'}")) ["error"]
  = Return (VStr (dq "{'error':'bad key'}")) /\
  Request.get_json Json.loads (Request.__init__ user_route 5 false)
    (mkResponse 200 "") [] = Return (VStr "").
Proof.
  split.
  - apply (get_json_text_unparsed Json.loads (Request.__init__ user_route 5 false)
             (mkResponse 401 (dq "{'error':'bad key'}")) ["error"] eq_refl).
  - apply (get_json_text_unparsed Json.loads (Request.__init__ user_route 5 false)
             (mkResponse 200 "") [] eq_refl).
Defined.

Example fetch_stores_payload :
  let '(result, self', _) :=
    Request.fetch_with_session Json.loads (Request.__init__ user_route 5 true)
      (answering 200 "[{'id':1}]") in
  result = Return (VList [VDict [("id", VInt 1)]]) /\
  Request.data self' = VList [VDict [("id", VInt 1)]].
Proof. split; reflexivity. Qed.

(** C9 as stated fails on a route with a rejected parameter: the call
    sends no request. *)
Lemma no_dispatch_when_rejected :
  dispatches Json.loads (Request.__init__ unknown_route 5 true)
    (answering 200 "[]") = 0.
Proof. reflexivity. Qed.

Example one_dispatch_when_accepted :
  dispatches Json.loads (Request.__init__ user_route 5 true)
    (answering 500 "<html>") = 1 /\
  dispatches Json.loads (Request.__init__ user_route 0 true)
    (answering 500 "<html>") = 1.
Proof. split; reflexivity. Qed.

Example parse_version_examples :
  BeatmapFile.parse_version "osu file format v14" = Return 14 /\
  BeatmapFile.parse_version "OSU File Format V007x" = Return 7 /\
  BeatmapFile.parse_version "osu file format v" = Raise ValueError /\
  BeatmapFile.parse_version "" = Raise AttributeError.
Proof. repeat split. Qed.



(** * Further properties of Route *)

Section DictUpdates.

Context {V : Type}.

Lemma dict_set_absent (d : dict V) (key : string) (v : V) :
  dict_mem d key = false -> dict_set d key v = d ++ [(key, v)].
Proof.
  unfold dict_mem. induction d as [|[k w] d IH]; simpl; [reflexivity|].
  destruct (String.eqb k key); [discriminate|]. intros H. now rewrite IH.
Qed.

Lemma dict_set_twice (d : dict V) (key : string) (v w : V) :
  dict_set (dict_set d key v) key w = dict_set d key w.
Proof.
  induction d as [|[k x] d IH]; simpl.
  - now rewrite String.eqb_refl.
  - destruct (String.eqb k key) eqn:E; simpl; rewrite E; [reflexivity|].
    now rewrite IH.
Qed.

Lemma dict_pop_absent (d : dict V) (key : string) :
  dict_mem d key = false -> dict_pop d key = (None, d).
Proof.
  unfold dict_mem. induction d as [|[k w] d IH]; simpl; [reflexivity|].
  destruct (String.eqb k key); [discriminate|]. intros H. now rewrite IH.
Qed.

Lemma dict_pop_last (d : dict V) (key : string) (v : V) :
  dict_mem d key = false -> dict_pop (d ++ [(key, v)]) key = (Some v, d).
Proof.
  unfold dict_mem. induction d as [|[k w] d IH]; simpl.
  - now rewrite String.eqb_refl.
  - destruct (String.eqb k key); [discriminate|]. intros H. now rewrite IH.
Qed.

Lemma dict_pop_get_other (d : dict V) (key k : string) :
  k <> key -> dict_get (snd (dict_pop d key)) k = dict_get d k.
Proof.
  intros Hne. induction d as [|[k' w] d IH]; simpl; [reflexivity|].
  destruct (String.eqb_spec k' key) as [->|Hk]; simpl.
  - destruct (String.eqb_spec key k); congruence.
  - destruct (dict_pop d key) as [r d']. simpl in *. now rewrite IH.
Qed.

Lemma dict_get_absent (d : dict V) (key : string) :
  ~ In key (dict_keys d) -> dict_get d key = None.
Proof.
  intros H. destruct (dict_get d key) eqn:E; [|reflexivity].
  elim H. apply dict_mem_In. unfold dict_mem. now rewrite E.
Qed.

Lemma filter_other_keys (keys : list string) (key : string) :
  ~ In key keys -> filter (fun k => negb (String.eqb k key)) keys = keys.
Proof.
  induction keys as [|k keys IH]; simpl; [reflexivity|].
  intros H. destruct (String.eqb_spec k key) as [->|Hk]; simpl.
  - elim H. now left.
  - rewrite IH; [reflexivity|]. intros Hin. apply H. now right.
Qed.

Lemma dict_pop_keys_filter (d : dict V) (key : string) :
  NoDup (dict_keys d) ->
  dict_keys (snd (dict_pop d key)) =
  filter (fun k => negb (String.eqb k key)) (dict_keys d).
Proof.
  induction d as [|[k w] d IH]; simpl; [reflexivity|].
  intros H. inversion H as [|? ? Hk Hd]; subst.
  destruct (String.eqb_spec k key) as [->|Hne]; simpl.
  - now rewrite filter_other_keys.
  - specialize (IH Hd). destruct (dict_pop d key) as [r d']. simpl in *.
    now rewrite IH.
Qed.

End DictUpdates.

Lemma init_fold (kwargs : list (string * option param)) (acc : dict param) :
  NoDup (dict_keys acc ++ map fst kwargs) ->
  fold_left
    (fun ps kv => match snd kv with
                  | Some v => dict_set ps (fst kv) v
                  | None => ps
                  end) kwargs acc
  = acc ++ given kwargs.
Proof.
  revert acc. induction kwargs as [|[k [v|]] kwargs IH]; intros acc H; simpl.
  - now rewrite app_nil_r.
  - simpl in H. pose proof (NoDup_remove_2 _ _ _ H) as Hk.
    assert (Hm : dict_mem acc k = false).
    { destruct (dict_mem acc k) eqn:E; [|reflexivity].
      apply dict_mem_In in E. elim Hk. apply in_or_app. now left. }
    rewrite (dict_set_absent _ _ _ Hm), IH.
    + now rewrite <- app_assoc.
    + unfold dict_keys in *. rewrite map_app. simpl. rewrite <- app_assoc.
      exact H.
  - apply IH. simpl in H. now apply NoDup_remove_1 in H.
Qed.

(** X1.  From keyword arguments of distinct names, [Route.__init__]
    stores the ones whose value is not [None], every other value kept
    (zero, the empty string and [False] too), in the order given. *)
Theorem init_keeps_given (path api_key base : string)
  (kwargs : list (string * option param)) :
  NoDup (map fst kwargs) ->
  Route.parameters (Route.__init__ path api_key base kwargs) = given kwargs /\
  (forall key v, In (key, Some v) kwargs ->
     dict_get (Route.parameters (Route.__init__ path api_key base kwargs)) key
     = Some v) /\
  (forall key, In (key, None) kwargs ->
     dict_get (Route.parameters (Route.__init__ path api_key base kwargs)) key
     = None).
Proof.
  intros H. unfold Route.__init__. simpl. rewrite (init_fold kwargs []) by exact H.
  simpl. split; [reflexivity|].
  induction kwargs as [|[k o] kwargs IH]; simpl.
  - split; intros; contradiction.
  - inversion H as [|? ? Hk Hd]; subst. destruct (IH Hd) as [IH1 IH2].
    assert (Hne : forall key o', In (key, o') kwargs -> k <> key).
    { intros key o' Hin ->. apply Hk. now apply (in_map fst) in Hin. }
    split.
    + intros key v [[= -> ->]|Hin]; simpl.
      * now rewrite String.eqb_refl.
      * destruct o as [w|]; simpl; [|now apply IH1].
        destruct (String.eqb_spec k key) as [E|E]; [|now apply IH1].
        elim (Hne _ _ Hin E).
    + intros key [[= -> ->]|Hin]; simpl.
      * apply dict_get_absent. unfold dict_keys, given. intros Hin.
        apply in_map_iff in Hin. destruct Hin as ([k' v'] & Hk' & Hin).
        simpl in Hk'. subst k'. apply in_flat_map in Hin.
        destruct Hin as ([k'' o''] & Hin & Hx). simpl in Hx.
        destruct o'' as [w|]; [|contradiction]. destruct Hx as [[= -> ->]|[]].
        apply Hk. now apply (in_map fst) in Hin.
      * destruct o as [w|]; simpl; [|now apply IH2].
        destruct (String.eqb_spec k key) as [E|E]; [|now apply IH2].
        elim (Hne _ _ Hin E).
Qed.

Lemma init_keeps_given_witness :
  Route.parameters
    (Route.__init__ "get_scores" "" Route.default_base
       [("b", Some (PInt 0)); ("u", None); ("m", Some (PStr ""));
        ("a", Some (PBool false))])
  = [("b", PInt 0); ("m", PStr ""); ("a", PBool false)].
Proof.
  apply (init_keeps_given "get_scores" "" Route.default_base
           [("b", Some (PInt 0)); ("u", None); ("m", Some (PStr ""));
            ("a", Some (PBool false))]).
  repeat constructor; simpl; intuition discriminate.
Defined.

(** X2.  [remove_param] answers whether the key was stored; afterwards
    the key is gone, the other keys keep their values and their order,
    base, path and key are untouched, and a route that did not have the
    key is given back as it was. *)
Theorem remove_param_effect (self : Route.t) (key : string) :
  NoDup (dict_keys (Route.parameters self)) ->
  let (removed, self') := Route.remove_param self key in
  removed = dict_mem (Route.parameters self) key /\
  dict_get (Route.parameters self') key = None /\
  (forall k, k <> key ->
     dict_get (Route.parameters self') k = dict_get (Route.parameters self) k) /\
  dict_keys (Route.parameters self') =
    filter (fun k => negb (String.eqb k key)) (dict_keys (Route.parameters self)) /\
  Route.base self' = Route.base self /\
  Route.path self' = Route.path self /\
  Route.api_key self' = Route.api_key self /\
  (removed = false -> self' = self).
Proof.
  intros H. unfold Route.remove_param.
  pose proof (dict_pop_get (Route.parameters self) key) as Hg.
  pose proof (dict_pop_removes (Route.parameters self) key H) as Hr.
  pose proof (dict_pop_get_other (Route.parameters self) key) as Ho.
  pose proof (dict_pop_keys_filter (Route.parameters self) key H) as Hf.
  pose proof (dict_pop_absent (Route.parameters self) key) as Ha.
  destruct (dict_pop (Route.parameters self) key) as [r d']. simpl in *.
  unfold dict_mem in *. rewrite <- Hg in *.
  split; [reflexivity|]. split; [now apply dict_get_absent|].
  split; [intros k Hk; now apply Ho|]. split; [exact Hf|].
  repeat (split; [reflexivity|]).
  destruct r; [discriminate|]. intros _.
  specialize (Ha eq_refl). injection Ha as ->. now destruct self.
Qed.

Lemma remove_param_effect_witness :
  fst (Route.remove_param unknown_route "x") = true /\
  dict_keys (Route.parameters (snd (Route.remove_param unknown_route "x"))) = ["y"] /\
  snd (Route.remove_param unknown_route "z") = unknown_route.
Proof.
  assert (Hn : NoDup (dict_keys (Route.parameters unknown_route)))
    by (repeat constructor; simpl; intuition discriminate).
  pose proof (remove_param_effect unknown_route "x" Hn) as H.
  pose proof (remove_param_effect unknown_route "z" Hn) as H'.
  destruct (Route.remove_param unknown_route "x") as [r1 s1].
  destruct (Route.remove_param unknown_route "z") as [r2 s2].
  simpl. destruct H as (-> & _ & _ & -> & _).
  destruct H' as (E & _ & _ & _ & _ & _ & _ & H').
  repeat split. apply H'. rewrite E. reflexivity.
Defined.

(** X3.  Adding a parameter under a key the route does not have and
    removing it again gives the route back, and the removal reports that
    something was removed. *)
Theorem remove_after_add (self : Route.t) (key : string) (v : param) :
  dict_mem (Route.parameters self) key = false ->
  Route.remove_param (Route.add_param self key (Some v)) key = (true, self).
Proof.
  intros H. unfold Route.remove_param, Route.add_param. simpl.
  rewrite (dict_set_absent _ _ _ H), (dict_pop_last _ _ _ H).
  now destruct self.
Qed.

Lemma remove_after_add_witness :
  Route.remove_param (Route.add_param user_route "m" (Some (PInt 3))) "m"
  = (true, user_route).
Proof. apply (remove_after_add user_route "m" (PInt 3)). reflexivity. Defined.

(** X4.  Of two values added under one key the last one stays: the route
    is the one a single [add_param] of the last value gives; and a [None]
    after a value leaves the value. *)
Theorem add_param_last_wins (self : Route.t) (key : string) (v w : param) :
  Route.add_param (Route.add_param self key (Some v)) key (Some w)
  = Route.add_param self key (Some w) /\
  Route.add_param (Route.add_param self key (Some v)) key None
  = Route.add_param self key (Some v).
Proof.
  split; [|reflexivity]. unfold Route.add_param. simpl.
  now rewrite dict_set_twice.
Qed.

(** X5.  The parameters pass [check_params] after an [add_param] of a
    value exactly when they passed before and the key added is in the
    allow-list: a rejected key is accepted when added and found when
    checked. *)
Theorem check_params_after_add (self : Route.t) (key : string) (v : param) :
  Route.check_params (Route.add_param self key (Some v)) = Return tt <->
  Route.check_params self = Return tt /\ In key Route.accepted_params.
Proof.
  unfold Route.check_params, Route.add_param. simpl.
  rewrite !check_keys_return.
  destruct (dict_mem (Route.parameters self) key) eqn:E.
  - rewrite (dict_keys_set_present _ _ _ E). apply dict_mem_In in E.
    split; [intros H; split; [exact H|now apply H]|tauto].
  - rewrite (dict_keys_set_absent _ _ _ E). split.
    + intros H. split.
      * intros k Hin. apply H. apply in_or_app. now left.
      * apply H. apply in_or_app. right. now left.
    + intros [H Hk] k Hin. apply in_app_or in Hin.
      destruct Hin as [Hin|[<-|[]]]; auto.
Qed.

Lemma string_app_assoc (a b c : string) :
  ((a ++ b) ++ c)%string = (a ++ b ++ c)%string.
Proof.
  induction a as [|x a IH]; simpl; [reflexivity|now rewrite IH].
Qed.

Lemma concat_snoc (sep x : string) (l : list string) :
  String.concat sep (l ++ [x]) =
  match l with
  | [] => x
  | _ :: _ => (String.concat sep l ++ sep ++ x)%string
  end.
Proof.
  induction l as [|a l IH]; [reflexivity|].
  destruct l as [|b l]; [reflexivity|].
  change (String.concat sep ((a :: b :: l) ++ [x]))
    with (a ++ sep ++ String.concat sep ((b :: l) ++ [x]))%string.
  rewrite IH.
  change (String.concat sep (a :: b :: l))
    with (a ++ sep ++ String.concat sep (b :: l))%string.
  now rewrite !string_app_assoc.
Qed.

Lemma route_unfold (self : Route.t) :
  Route.route self =
  let params :=
    (if negb (String.eqb (Route.api_key self) "")
     then [("k=" ++ Route.api_key self)%string] else [])
    ++ map (fun kv => (fst kv ++ "=" ++ str (snd kv))%string)
         (Route.parameters self) in
  match params with
  | [] => (Route.base self ++ Route.path self)%string
  | _ :: _ =>
      (Route.base self ++ Route.path self ++ "?" ++ String.concat "&" params)%string
  end.
Proof.
  unfold Route.route. rewrite fold_left_snoc, length_positive. cbv zeta.
  destruct (negb (String.eqb (Route.api_key self) "")); simpl;
    [reflexivity|].
  now destruct (map _ (Route.parameters self)).
Qed.

(** X6.  The URL follows the parameters: adding a value under a key the
    route does not have puts [name=value] at the end of the URL, after a
    question mark when the URL had no query and after an ampersand when it
    had one. *)
Theorem route_after_add (self : Route.t) (key : string) (v : param) :
  dict_mem (Route.parameters self) key = false ->
  Route.route (Route.add_param self key (Some v)) =
  (Route.route self
   ++ (match Route.api_key self, Route.parameters self with
       | EmptyString, [] => "?"
       | _, _ => "&"
       end)
   ++ key ++ "=" ++ str v)%string.
Proof.
  intros H. rewrite !route_unfold. unfold Route.add_param. cbv zeta. simpl.
  rewrite (dict_set_absent _ _ _ H), map_app, app_assoc. simpl map.
  set (ps := (if negb (String.eqb (Route.api_key self) "") then _ else _) ++ _).
  assert (Hps : ps = [] <->
                Route.api_key self = "" /\ Route.parameters self = []).
  { unfold ps. destruct (Route.api_key self), (Route.parameters self); simpl;
      split; try discriminate; try tauto; intros [? ?]; discriminate. }
  destruct (ps ++ [_]) as [|q qs] eqn:E; [now destruct ps|].
  rewrite <- E, concat_snoc. destruct ps as [|p ps'].
  - destruct (proj1 Hps eq_refl) as [-> ->]. simpl.
    now rewrite !string_app_assoc.
  - assert (Hn : ~ (Route.api_key self = "" /\ Route.parameters self = [])).
    { intros Hc. apply Hps in Hc. discriminate. }
    rewrite !string_app_assoc.
    destruct (Route.api_key self), (Route.parameters self);
      try reflexivity. elim Hn. now split.
Qed.

Lemma route_after_add_witness :
  Route.route (Route.add_param user_route "m" (Some (PInt 3)))
  = "https://osu.ppy.sh/api/get_user?k=abc&u=peppy&m=3" /\
  Route.route (Route.add_param (Route.__init__ "get_user" "" "https://osu.ppy.sh/api/" [])
                 "u" (Some (PStr "peppy")))
  = "https://osu.ppy.sh/api/get_user?u=peppy".
Proof.
  split.
  - rewrite (route_after_add user_route "m" (PInt 3) eq_refl). reflexivity.
  - rewrite (route_after_add (Route.__init__ "get_user" "" "https://osu.ppy.sh/api/" [])
               "u" (PStr "peppy") eq_refl). reflexivity.
Defined.

Lemma concat_cons (sep c : string) (l : list string) :
  l <> [] -> String.concat sep (c :: l) = (c ++ sep ++ String.concat sep l)%string.
Proof. destruct l; [contradiction|reflexivity]. Qed.

Lemma concat_ampersand (l : list string) (a b : string) :
  String.concat "&" (l ++ [(a ++ "&" ++ b)%string]) = String.concat "&" (l ++ [a; b]).
Proof.
  induction l as [|c l IH]; [reflexivity|].
  rewrite <- !app_comm_cons, !concat_cons, IH; [reflexivity| |];
    now destruct l.
Qed.

(** X7.  Values go into the URL unescaped, so the URL does not tell a
    value that holds [&name=value] from a further parameter: a route
    ending with one such value has the URL of the route ending with the two
    parameters. *)
Theorem route_value_not_escaped (base path api_key : string)
  (ps : dict param) (key key' : string) (v v' : param) :
  Route.route
    (Route.mk base path api_key
       (ps ++ [(key, PStr (str v ++ "&" ++ key' ++ "=" ++ str v'))]))
  = Route.route (Route.mk base path api_key (ps ++ [(key, v); (key', v')])).
Proof.
  rewrite !route_unfold. cbv zeta.
  cbn [Route.base Route.path Route.api_key Route.parameters].
  rewrite !map_app. cbn [map fst snd str]. rewrite !app_assoc.
  set (l := _ ++ map _ ps).
  replace (key ++ "=" ++ str v ++ "&" ++ key' ++ "=" ++ str v')%string
    with ((key ++ "=" ++ str v) ++ "&" ++ key' ++ "=" ++ str v')%string
    by (now rewrite !string_app_assoc).
  rewrite concat_ampersand. now destruct l.
Qed.

(** * Further properties of Request *)

Ltac fetch_cases :=
  repeat match goal with
         | |- context [if status ?r =? ?n then _ else _] =>
             destruct (status r =? n) eqn:?
         | |- context [if (?a || ?b) then _ else _] => destruct (a || b) eqn:?
         | |- context [if negb ?b then _ else _] => destruct b eqn:?; simpl negb
         | |- context [bind (Request.get_json ?l ?s ?r ?a) _] =>
             destruct (Request.get_json l s r a) eqn:?; simpl bind
         | |- context [match Request.get_json ?l ?s ?r ?a with _ => _ end] =>
             destruct (Request.get_json l s r a) as [[]|] eqn:?
         | |- context [match dict_get ?d ?k with _ => _ end] =>
             destruct (dict_get d k) eqn:?
         | |- context [if eq_str ?m ?s then _ else _] => destruct (eq_str m s) eqn:?
         end.

Section FetchMore.

Variable loads : string -> outcome value.

(** The request and the session a call leaves, from what it gives. *)
Lemma fetch_leaves (self : Request.t) (session : Session) :
  let '(result, self', session') := Request.fetch_with_session loads self session in
  self' = match result with
          | Return v => Request.set_data self v
          | Raise _ => self
          end /\
  session' = match Route.check_params (Request.route self) with
             | Return _ =>
                 mkSession (respond session)
                   (requested session ++ [Route.route (Request.route self)])
             | Raise _ => session
             end.
Proof.
  destruct (Route.check_params (Request.route self)) as [[]|e] eqn:Hc.
  - rewrite (fetch_dispatched loads _ _ Hc). cbv zeta.
    fetch_cases; split; reflexivity.
  - rewrite (fetch_rejected loads _ _ _ Hc). split; reflexivity.
Qed.

(** The outcome of a call is decided by the answer to the URL of the
    route. *)
Lemma fetch_result_of_answer (self : Request.t) (s1 s2 : Session) :
  respond s1 (Route.route (Request.route self))
  = respond s2 (Route.route (Request.route self)) ->
  fst (fst (Request.fetch_with_session loads self s1))
  = fst (fst (Request.fetch_with_session loads self s2)).
Proof.
  intros H. destruct (Route.check_params (Request.route self)) as [[]|e] eqn:Hc.
  - rewrite !(fetch_dispatched loads _ _ Hc). cbv zeta. rewrite H.
    fetch_cases; reflexivity.
  - now rewrite !(fetch_rejected loads _ _ _ Hc).
Qed.

(** X8.  Validation comes first: when a stored key is outside the
    allow-list, [fetch_with_session] raises [InvalidArgument] with the first
    such key whatever the session would answer, sends nothing and leaves
    the request as it was. *)
Theorem fetch_fails_fast (self : Request.t) (session : Session)
  (pre post : list string) (key : string) :
  dict_keys (Route.parameters (Request.route self)) = pre ++ key :: post ->
  (forall k, In k pre -> In k Route.accepted_params) ->
  ~ In key Route.accepted_params ->
  Request.fetch_with_session loads self session
  = (Raise (InvalidArgument key), self, session).
Proof.
  intros Hk Hpre Hbad. apply fetch_rejected. unfold Route.check_params.
  apply check_keys_raise. now exists pre, key, post.
Qed.

(** X9.  When the parameters pass, the call asks the session once, for
    the URL of the route exactly, after what the session was asked before,
    and the session answers afterwards as it did. *)
Theorem fetch_asks_route (self : Request.t) (session : Session) :
  Route.check_params (Request.route self) = Return tt ->
  let session' := snd (Request.fetch_with_session loads self session) in
  requested session' = requested session ++ [Route.route (Request.route self)] /\
  respond session' = respond session.
Proof.
  intros Hc. cbv zeta. pose proof (fetch_leaves self session) as H.
  destruct (Request.fetch_with_session loads self session) as [[result self'] session'].
  destruct H as [_ ->]. rewrite Hc. split; reflexivity.
Qed.

(** X10.  What a call gives and stores depends on the session through
    the answer to the URL of the route alone: two sessions that answer it
    alike give the same outcome and leave the same request. *)
Theorem fetch_depends_on_answer (self : Request.t) (s1 s2 : Session) :
  respond s1 (Route.route (Request.route self))
  = respond s2 (Route.route (Request.route self)) ->
  fst (Request.fetch_with_session loads self s1)
  = fst (Request.fetch_with_session loads self s2).
Proof.
  intros H. pose proof (fetch_result_of_answer self s1 s2 H) as Hr.
  pose proof (fetch_leaves self s1) as H1.
  pose proof (fetch_leaves self s2) as H2.
  destruct (Request.fetch_with_session loads self s1) as [[r1 self1] s1'].
  destruct (Request.fetch_with_session loads self s2) as [[r2 self2] s2'].
  simpl in *. destruct H1 as [-> _], H2 as [-> _]. now subst.
Qed.

(** X11.  With [json_response] false a status 200 always succeeds: the
    text is returned and stored as it is, whatever it holds, a body with
    an [error] field included. *)
Theorem fetch_raw_text (self : Request.t) (session : Session) :
  let response := respond session (Route.route (Request.route self)) in
  Route.check_params (Request.route self) = Return tt ->
  status response = 200 ->
  Request.json_response self = false ->
  fst (Request.fetch_with_session loads self session)
  = (Return (VStr (text response)),
     Request.set_data self (VStr (text response))).
Proof.
  cbv zeta. intros Hc Hs Hj. rewrite (fetch_dispatched loads _ _ Hc). cbv zeta.
  rewrite Hs. simpl. now rewrite get_json_raw.
Qed.

(** X12.  With [json_response] true a status 200 with an empty body
    returns and stores an empty mapping, and the reader is not asked. *)
Theorem fetch_empty_body (self : Request.t) (session : Session) :
  let response := respond session (Route.route (Request.route self)) in
  Route.check_params (Request.route self) = Return tt ->
  status response = 200 ->
  Request.json_response self = true ->
  text response = "" ->
  fst (Request.fetch_with_session loads self session)
  = (Return (VDict []), Request.set_data self (VDict [])).
Proof.
  cbv zeta. intros Hc Hs Hj Ht. rewrite (fetch_dispatched loads _ _ Hc). cbv zeta.
  rewrite Hs. simpl. now rewrite get_json_empty.
Qed.

(** X13.  A body the reader refuses is not turned into a typed error:
    with [json_response] true and a text that is not empty, the exception
    of the reader comes out of the call for every status but 302 and 404,
    for 401 and for 500 as for 200, and the request is left as it was. *)
Theorem fetch_reader_exception (self : Request.t) (session : Session) (e : exn) :
  let response := respond session (Route.route (Request.route self)) in
  Route.check_params (Request.route self) = Return tt ->
  Request.json_response self = true ->
  text response <> "" ->
  loads (text response) = Raise e ->
  status response <> 302 ->
  status response <> 404 ->
  fst (Request.fetch_with_session loads self session) = (Raise e, self).
Proof.
  cbv zeta. intros Hc Hj Ht Hl H302 H404.
  rewrite (fetch_dispatched loads _ _ Hc). cbv zeta.
  rewrite !get_json_parsed, Hl by assumption. simpl bind.
  apply Z.eqb_neq in H302, H404. rewrite H302, H404. simpl orb.
  fetch_cases; reflexivity.
Qed.

(** X14.  A body read as something else than a mapping (a list, a
    number, a string, [null]) cannot be searched for [error]: for a status
    401 and for any status but 200, 302 and 404 the call raises
    [TypeError] in place of the typed error; with the status 200 the same
    body is returned and stored. *)
Theorem fetch_body_not_a_mapping (self : Request.t) (session : Session)
  (data : value) :
  let response := respond session (Route.route (Request.route self)) in
  Route.check_params (Request.route self) = Return tt ->
  Request.json_response self = true ->
  text response <> "" ->
  loads (text response) = Return data ->
  is_dict data = false ->
  (status response <> 200 -> status response <> 302 -> status response <> 404 ->
   fst (Request.fetch_with_session loads self session) = (Raise TypeError, self)) /\
  (status response = 200 ->
   fst (Request.fetch_with_session loads self session)
   = (Return data, Request.set_data self data)).
Proof.
  cbv zeta. intros Hc Hj Ht Hl Hd.
  rewrite (fetch_dispatched loads _ _ Hc). cbv zeta.
  rewrite !get_json_parsed, Hl by assumption. cbn [bind].
  assert (He : Request.descend data ["error"] = Raise TypeError)
    by (destruct data; try reflexivity; discriminate).
  rewrite He. split.
  - intros H200 H302 H404. apply Z.eqb_neq in H200, H302, H404.
    rewrite H200, H302, H404. simpl. now destruct (status _ =? 401).
  - intros ->. simpl. destruct data; try reflexivity; discriminate.
Qed.

(** X15.  [get_json] raises only with [json_response] true and a text
    that is not empty, and then either the reader raised that exception
    on the text, or the text was read, keys were asked for and the
    exception is [TypeError]: a [KeyError] of its own never comes out. *)
Theorem get_json_exceptions (self : Request.t) (response : Response)
  (args : list string) (e : exn) :
  Request.get_json loads self response args = Raise e ->
  Request.json_response self = true /\
  text response <> "" /\
  (loads (text response) = Raise e \/
   (e = TypeError /\ args <> [] /\ exists data, loads (text response) = Return data)).
Proof.
  unfold Request.get_json.
  destruct (Request.json_response self); simpl; [|discriminate].
  destruct (String.eqb_spec (text response) ""); [discriminate|].
  destruct (loads (text response)) as [data|e'] eqn:Hl; simpl.
  - destruct args as [|key rest]; [discriminate|]. simpl Z.eqb. cbv iota.
    intros H. apply descend_raise in H. subst e.
    repeat split; auto. right. repeat split; [discriminate|now exists data].
  - intros [= ->]. auto.
Qed.

(** X16.  Over two calls in a row the stored data is what the last call
    that returned gave, and the data before the calls when neither
    returned; flags, retry count and route are those of the start. *)
Theorem fetch_twice (self : Request.t) (s1 s2 : Session) :
  let '(r1, self1, _) := Request.fetch_with_session loads self s1 in
  let '(r2, self2, _) := Request.fetch_with_session loads self1 s2 in
  Request.data self2 =
    match r2, r1 with
    | Return v, _ => v
    | Raise _, Return v => v
    | Raise _, Raise _ => Request.data self
    end /\
  Request.route self2 = Request.route self /\
  Request.json_response self2 = Request.json_response self /\
  Request.retry_count self2 = Request.retry_count self.
Proof.
  pose proof (fetch_leaves self s1) as H1.
  destruct (Request.fetch_with_session loads self s1) as [[r1 self1] s1'].
  pose proof (fetch_leaves self1 s2) as H2.
  destruct (Request.fetch_with_session loads self1 s2) as [[r2 self2] s2'].
  destruct H1 as [-> _], H2 as [-> _].
  destruct r1, r2; repeat split.
Qed.

(** X17.  [fetch] with a session is [fetch_with_session] on it, the
    session handed back with the request it was sent; without one the call
    gives and stores what it would with any session that answers the URL of
    the route as the session of its own does. *)
Theorem fetch_own_session (ClientSession : Session) (self : Request.t)
  (session : Session) :
  Request.fetch loads ClientSession self (Some session)
  = (let '(result, self', session') :=
       Request.fetch_with_session loads self session in
     (result, self', Some session')) /\
  snd (Request.fetch loads ClientSession self None) = None /\
  (respond ClientSession (Route.route (Request.route self))
   = respond session (Route.route (Request.route self)) ->
   fst (Request.fetch loads ClientSession self None)
   = fst (Request.fetch loads ClientSession self (Some session))).
Proof.
  split; [reflexivity|]. unfold Request.fetch.
  pose proof (fetch_result_of_answer self ClientSession session) as Hr.
  pose proof (fetch_leaves self ClientSession) as H1.
  pose proof (fetch_leaves self session) as H2.
  destruct (Request.fetch_with_session loads self ClientSession) as [[r1 self1] s1'].
  destruct (Request.fetch_with_session loads self session) as [[r2 self2] s2'].
  simpl in *. split; [reflexivity|]. intros H. specialize (Hr H).
  destruct H1 as [-> _], H2 as [-> _]. now subst.
Qed.

End FetchMore.

Lemma fetch_fails_fast_witness :
  Request.fetch_with_session Json.loads (Request.__init__ unknown_route 5 true)
    (answering 200 "[]")
  = (Raise (InvalidArgument "x"), Request.__init__ unknown_route 5 true,
     answering 200 "[]").
Proof.
  apply (fetch_fails_fast Json.loads (Request.__init__ unknown_route 5 true)
           (answering 200 "[]") [] ["y"] "x" eq_refl).
  - intros k [].
  - intros H. apply accepted_In in H. discriminate.
Defined.

Lemma fetch_asks_route_witness :
  requested (snd (Request.fetch_with_session Json.loads
                    (Request.__init__ user_route 5 true) (answering 404 "")))
  = ["https://osu.ppy.sh/api/get_user?k=abc&u=peppy"].
Proof.
  apply (fetch_asks_route Json.loads (Request.__init__ user_route 5 true)
           (answering 404 "") eq_refl).
Defined.

Lemma fetch_depends_on_answer_witness :
  fst (Request.fetch_with_session Json.loads (Request.__init__ user_route 5 true)
         (answering 200 "[1]"))
  = fst (Request.fetch_with_session Json.loads (Request.__init__ user_route 5 true)
           (mkSession (fun url => mkResponse
                                    (if String.eqb url (Route.route user_route)
                                     then 200 else 500) "[1]")
              ["https://osu.ppy.sh/api/get_beatmaps"])).
Proof.
  apply (fetch_depends_on_answer Json.loads (Request.__init__ user_route 5 true)
           (answering 200 "[1]")
           (mkSession (fun url => mkResponse
                                    (if String.eqb url (Route.route user_route)
                                     then 200 else 500) "[1]")
              ["https://osu.ppy.sh/api/get_beatmaps"])).
  reflexivity.
Defined.

Lemma fetch_raw_text_witness :
  fst (Request.fetch_with_session Json.loads (Request.__init__ user_route 5 false)
         (answering 200 "{'error':'Replay not available.'}"))
  = (Return (VStr (dq "{'error':'Replay not available.'}")),
     Request.set_data (Request.__init__ user_route 5 false)
       (VStr (dq "{'error':'Replay not available.'}"))).
Proof.
  apply (fetch_raw_text Json.loads (Request.__init__ user_route 5 false)
           (answering 200 "{'error':'Replay not available.'}")
           eq_refl eq_refl eq_refl).
Defined.

Lemma fetch_empty_body_witness :
  fst (Request.fetch_with_session Json.loads (Request.__init__ user_route 5 true)
         (answering 200 ""))
  = (Return (VDict []), Request.set_data (Request.__init__ user_route 5 true) (VDict [])).
Proof.
  apply (fetch_empty_body Json.loads (Request.__init__ user_route 5 true)
           (answering 200 "") eq_refl eq_refl eq_refl eq_refl).
Defined.

Lemma fetch_reader_exception_witness :
  fst (Request.fetch_with_session Json.loads (Request.__init__ user_route 5 true)
         (answering 500 "<html>Internal Server Error</html>"))
  = (Raise JSONDecodeError, Request.__init__ user_route 5 true) /\
  fst (Request.fetch_with_session Json.loads (Request.__init__ user_route 5 true)
         (answering 401 "Unauthorized"))
  = (Raise JSONDecodeError, Request.__init__ user_route 5 true).
Proof.
  split.
  - apply (fetch_reader_exception Json.loads (Request.__init__ user_route 5 true)
             (answering 500 "<html>Internal Server Error</html>") JSONDecodeError
             eq_refl eq_refl); try reflexivity; discriminate.
  - apply (fetch_reader_exception Json.loads (Request.__init__ user_route 5 true)
             (answering 401 "Unauthorized") JSONDecodeError
             eq_refl eq_refl); try reflexivity; discriminate.
Defined.

Lemma fetch_body_not_a_mapping_witness :
  fst (Request.fetch_with_session Json.loads (Request.__init__ user_route 5 true)
         (answering 500 "['down']"))
  = (Raise TypeError, Request.__init__ user_route 5 true) /\
  fst (Request.fetch_with_session Json.loads (Request.__init__ user_route 5 true)
         (answering 200 "['down']"))
  = (Return (VList [VStr "down"]),
     Request.set_data (Request.__init__ user_route 5 true) (VList [VStr "down"])).
Proof.
  assert (Ht : dq "['down']" <> "") by discriminate.
  split.
  - apply (fetch_body_not_a_mapping Json.loads (Request.__init__ user_route 5 true)
             (answering 500 "['down']") (VList [VStr "down"])
             eq_refl eq_refl Ht eq_refl eq_refl); discriminate.
  - apply (fetch_body_not_a_mapping Json.loads (Request.__init__ user_route 5 true)
             (answering 200 "['down']") (VList [VStr "down"])
             eq_refl eq_refl Ht eq_refl eq_refl). reflexivity.
Defined.

Lemma get_json_exceptions_witness :
  Json.loads "oops" = Raise JSONDecodeError \/
  (JSONDecodeError = TypeError /\ ["error"] <> @nil string /\
   exists data, Json.loads "oops" = Return data).
Proof.
  apply (get_json_exceptions Json.loads (Request.__init__ user_route 5 true)
           (mkResponse 500 "oops") ["error"] JSONDecodeError eq_refl).
Defined.

(** * Further properties of BeatmapFile *)

Lemma lower_idempotent (c : ascii) :
  BeatmapFile.lower (BeatmapFile.lower c) = BeatmapFile.lower c.
Proof. destruct c as [[] [] [] [] [] [] [] []]; reflexivity. Qed.

Lemma is_digit_lower (c : ascii) :
  Json.is_digit (BeatmapFile.lower c) = Json.is_digit c.
Proof. destruct c as [[] [] [] [] [] [] [] []]; reflexivity. Qed.

Lemma lower_digit (c : ascii) :
  Json.is_digit c = true -> BeatmapFile.lower c = c.
Proof. destruct c as [[] [] [] [] [] [] [] []]; try reflexivity; discriminate. Qed.

Lemma digit_value_bounds (c : ascii) :
  Json.is_digit c = true -> 0 <= Json.digit_value c <= 9.
Proof.
  destruct c as [[] [] [] [] [] [] [] []]; try discriminate;
    intros _; vm_compute; split; discriminate.
Qed.

Lemma decimal_nonneg (ds : string) (acc : Z) :
  all_digits ds = true -> 0 <= acc -> 0 <= Json.decimal acc ds.
Proof.
  revert acc.
  induction ds as [|c ds IH]; cbn [Json.decimal all_digits]; intros acc H Hacc;
    [exact Hacc|].
  apply andb_prop in H. destruct H as [Hc Hd].
  apply IH; [exact Hd|]. pose proof (digit_value_bounds c Hc). lia.
Qed.

Lemma match_ci_lower (p s : string) :
  BeatmapFile.match_ci p (lower_string s)
  = option_map lower_string (BeatmapFile.match_ci p s).
Proof.
  revert s. induction p as [|a p IH]; intros s; [reflexivity|].
  destruct s as [|b s]; [reflexivity|]. simpl.
  rewrite lower_idempotent.
  destruct (Ascii.eqb (BeatmapFile.lower a) (BeatmapFile.lower b)); [apply IH|reflexivity].
Qed.

Lemma span_digits_lower (s : string) :
  fst (Json.span_digits (lower_string s)) = fst (Json.span_digits s).
Proof.
  induction s as [|c s IH]; [reflexivity|]. simpl.
  rewrite is_digit_lower. destruct (Json.is_digit c) eqn:E; [|reflexivity].
  destruct (Json.span_digits (lower_string s)), (Json.span_digits s).
  simpl in *. now rewrite IH, (lower_digit _ E).
Qed.

Lemma search_lower (s : string) :
  BeatmapFile.search (lower_string s) = BeatmapFile.search s.
Proof.
  induction s as [|c s IH]; [reflexivity|].
  rewrite (search_unfold (lower_string (String c s))), (search_unfold (String c s)).
  rewrite match_ci_lower.
  destruct (BeatmapFile.match_ci BeatmapFile.regex_head (String c s)) as [rest|];
    simpl option_map; cbv iota.
  - now rewrite span_digits_lower.
  - simpl lower_string. cbv iota. exact IH.
Qed.

(** X18.  For a content of ASCII characters, a version read by
    [parse_version] is never negative. *)
Theorem parse_version_nonneg (content : string) (n : Z) :
  is_ascii content = true ->
  BeatmapFile.parse_version content = Return n -> 0 <= n.
Proof.
  intros _ H. apply parse_version_return in H.
  destruct H as (pre & m & ds & rest & _ & _ & _ & _ & Hd & _ & ->).
  apply decimal_nonneg; [exact Hd|lia].
Qed.

Lemma parse_version_nonneg_witness :
  is_ascii "osu file format v14" = true /\
  BeatmapFile.parse_version "osu file format v14" = Return 14 /\ 0 <= 14.
Proof.
  split; [reflexivity|]. split; [reflexivity|].
  apply (parse_version_nonneg "osu file format v14" 14); reflexivity.
Defined.

(** X19.  The case of letters does not count: two contents equal up to the
    case of their letters give the same version, or raise the same
    exception. *)
Theorem parse_version_ignores_case (a b : string) :
  lower_string a = lower_string b ->
  BeatmapFile.parse_version a = BeatmapFile.parse_version b.
Proof.
  intros H. unfold BeatmapFile.parse_version.
  now rewrite <- (search_lower a), <- (search_lower b), H.
Qed.

Lemma parse_version_ignores_case_witness :
  BeatmapFile.parse_version "OSU FILE FORMAT V9"
  = BeatmapFile.parse_version "Osu File Format v9".
Proof.
  apply (parse_version_ignores_case "OSU FILE FORMAT V9" "Osu File Format v9").
  reflexivity.
Defined.
